(** * LiquidGlass camera: capture session, photo pipeline and media store

    A shallow embedding of [components/LiquidGlassCamera.tsx]: the IndexedDB
    helper, the camera session (the main effect, [startCamera], [applyZoom]),
    the recording life cycle ([startVideoRecording], [stopVideoRecording]),
    the unified trigger ([triggerCapture]) and the photo pipeline
    ([takePhoto]); and of [checkPermissionsStatus] of [utils/permissions.ts],
    which the main effect calls.

    Conventions of the embedding.
    - A JavaScript number is the rational it denotes ([Q]).  Sizes of frames
      are integers, and their differences, halves and minima are doubles
      again.  Where an operation of the code can round, the model rounds:
      [fl] is rounding to the nearest double, ties to even (the 4:3 crop of
      [takePhoto]).  Overflow, underflow and NaN do not arise there.
    - Values kept in [useRef] cells and values owned by the platform (streams,
      tracks, recorders, the object store, armed timers) live in one record,
      [World].  Values of [useState] cells are kept there as well; a handler
      reads them through the [Closure] of the render it was created in, and
      the component is taken to have rendered again between two tasks of the
      event loop.
    - A handler is a function on worlds that returns or throws.  Timers,
      recorder events, the answers to [checkPermissionsStatus] and to
      [getUserMedia] and the encoding of a photo resume the component as
      tasks of their own ([Event]); the awaits on the object store ([dbAdd],
      [dbGetAll]) are run through in one piece.
    - The platform's free choices (a rejected constraint, a throwing
      constructor, a failed write) are fields of [World], so every theorem
      quantified over worlds is quantified over platform behaviour too.
    - Platform calls append to [log], the trace of observable effects.
    - Left out: the view, the permission screen with
      [handleGrantPermissions], the volume keys, the drag of the mode capsule
      and the focus hint of [handleFocus]. *)

From Stdlib Require Import QArith Qround Qabs Qpower Lqa Lia ZArith.
From Stdlib Require Import Sorting.Sorted Permutation.
From stdpp Require Import base list strings.

(** ** Numbers *)

Definition Qgtb (a b : Q) : bool := negb (Qle_bool a b).

(** [Math.min] on two numbers. *)
Definition Math_min (a b : Q) : Q := if Qle_bool a b then a else b.


(** Frame sizes are [unsigned long] in the DOM. *)
Definition num (n : N) : Q := inject_Z (Z.of_N n).

(** *** Doubles *)

(** The integer nearest to [y], ties to even. *)
Definition rne (y : Q) : Z :=
  let f := Qfloor y in
  match Qcompare (y - inject_Z f) (1 # 2) with
  | Lt => f
  | Gt => (f + 1)%Z
  | Eq => if Z.even f then f else (f + 1)%Z
  end.

(** The binary exponent of a positive [x]: [2 ^ e <= x < 2 ^ (e + 1)]. *)
Definition ilog2 (x : Q) : Z :=
  let e0 := (Z.log2 (Qnum x) - Z.log2 (Zpos (Qden x)))%Z in
  if Qle_bool (2 ^ e0) x then e0 else (e0 - 1)%Z.

(** The double nearest to [x]: its 53-bit significand is [x] scaled into
    [2^52, 2^53) and rounded, ties to even. *)
Definition fl (x : Q) : Q :=
  if Qeq_bool x 0 then 0
  else
    let e := ilog2 (Qabs x) in
    Qred (inject_Z (rne (x * 2 ^ (52 - e))) * 2 ^ (e - 52)).

(** [a * b], [a - b] and [a / b] on doubles. *)
Definition fmul (a b : Q) : Q := fl (a * b).
Definition fsub (a b : Q) : Q := fl (a - b).
Definition fdiv (a b : Q) : Q := fl (a / b).

(** The conversion of a number to [unsigned long], as the setter of
    [canvas.width] does it: the fraction is dropped, the rest is taken
    modulo 2^32. *)
Definition toUnsignedLong (x : Q) : N :=
  Z.to_N (Z.modulo (Z.quot (Qnum x) (Zpos (Qden x))) 4294967296).

(** What an attribute that reflects an [unsigned long] keeps of a number
    assigned to it: the converted number, or the attribute's default when
    that is above 2147483647. *)
Definition reflected (default : N) (x : Q) : N :=
  let n := toUnsignedLong x in
  if (n <=? 2147483647)%N then n else default.

(** ** Types of the component *)

Inductive AspectRatio := AspectFull | Aspect43 | Aspect11.
Inductive CameraMode := ModeVideo | ModePhoto.
Inductive Resolution := R720p | R1080p.
Inductive FacingMode := FacingUser | FacingEnvironment.

(** [prev => prev === 'environment' ? 'user' : 'environment'] *)
Definition toggle (f : FacingMode) : FacingMode :=
  match f with FacingEnvironment => FacingUser | FacingUser => FacingEnvironment end.

Record FilterStyle := mkStyle { styleName : string; styleFilter : string }.

Definition STYLES : list FilterStyle :=
  [ mkStyle "Normal" "none";
    mkStyle "Vivid" "contrast(1.1) saturate(1.3)";
    mkStyle "Mono" "grayscale(1) contrast(1.1)";
    mkStyle "Cool" "sepia(0.2) hue-rotate(180deg) saturate(0.9)";
    mkStyle "Warm" "sepia(0.3) saturate(1.2) contrast(1.05)";
    mkStyle "Cyber" "hue-rotate(190deg) contrast(1.2)" ].

Definition ZOOM_LEVELS : list Q := [1 # 2; 1; 2; 5; 10]%Q.

(** ** Photo pipeline: the source rectangle *)

Record SourceRect := mkRect { sx : Q; sy : Q; sWidth : Q; sHeight : Q }.

Section Crop.
Local Open Scope Q_scope.

(** The crop computed in [takePhoto] from [video.videoWidth] and
    [video.videoHeight].  The operations of the 1:1 branch are exact on
    sizes of frames; those of the 4:3 branch are the operations on
    doubles. *)
Definition sourceRect (aspect : AspectRatio) (width height : Q) : SourceRect :=
  let full := mkRect 0 0 width height in
  match aspect with
  | Aspect11 =>
      let min := Math_min width height in
      mkRect ((width - min) / 2) ((height - min) / 2) min min
  | Aspect43 =>
      if Qgtb width height then
        let targetWidth := fmul height (fdiv 4 3) in
        if Qgtb width targetWidth
        then mkRect (fdiv (fsub width targetWidth) 2) (sy full) targetWidth (sHeight full)
        else
          let targetHeight := fmul width (fdiv 3 4) in
          mkRect (sx full) (fdiv (fsub height targetHeight) 2) (sWidth full) targetHeight
      else
        let targetHeight := fmul width (fdiv 4 3) in
        if Qgtb height targetHeight
        then mkRect (sx full) (fdiv (fsub height targetHeight) 2) (sWidth full) targetHeight
        else
          let targetWidth := fmul height (fdiv 3 4) in
          mkRect (fdiv (fsub width targetWidth) 2) (sy full) targetWidth (sHeight full)
  | AspectFull => full
  end.

(** Pixels left out on the right and at the bottom of the frame. *)
Definition trimRight (width : Q) (r : SourceRect) : Q := width - (sx r + sWidth r).
Definition trimBottom (height : Q) (r : SourceRect) : Q := height - (sy r + sHeight r).
End Crop.

(** ** Blobs and stored records *)

Record Blob := mkBlob { blobData : list Byte.byte; blobType : string }.

Definition blobSize (b : Blob) : nat := length (blobData b).

(** [new Blob(parts, { type })]: the parts' bytes, one after the other. *)
Definition newBlob (parts : list Blob) (type : string) : Blob :=
  mkBlob (List.concat (List.map blobData parts)) type.

Inductive MediaType := TypePhoto | TypeVideo.

Inductive Meta :=
| MetaVideo (facing : FacingMode)
| MetaPhoto (style : string) (aspect : AspectRatio) (night : bool).

(** The object handed to [dbAdd]; it carries no [id]. *)
Record MediaRecord := mkMedia {
  mediaType : MediaType;
  mediaBlob : Blob;
  mediaLiveBlob : option Blob;
  createdAt : Z;
  mediaMeta : Meta }.

(** A value of the object store: the record with the key written at the key
    path [id]. *)
Record Item := mkItem { id : Z; item : MediaRecord }.

(** The object store [media] ([keyPath: "id", autoIncrement: true]): its
    values in ascending key order and the current number of its key
    generator (1 in a fresh store). *)
Record ObjectStore := mkStore { entries : list Item; keyGenerator : Z }.

Definition emptyStore : ObjectStore := mkStore [] 1.

(** [store.add(record)] for a record without [id]: the key generator's
    current number becomes the key and the generator moves on. *)
Definition store_add (r : MediaRecord) (s : ObjectStore) : Z * ObjectStore :=
  let key := keyGenerator s in
  (key, mkStore (entries s ++ [mkItem key r]) (key + 1)).

(** [store.getAll()]: every value, in ascending key order. *)
Definition store_getAll (s : ObjectStore) : list Item := entries s.

(** [Array.prototype.sort(compare)]: a stable sort; [a] stays in front of [b]
    unless [compare(a, b) > 0]. *)
Fixpoint sort_insert {A} (compare : A -> A -> Z) (a : A) (l : list A) : list A :=
  match l with
  | [] => [a]
  | b :: l' =>
      if (compare a b <=? 0)%Z then a :: b :: l'
      else b :: sort_insert compare a l'
  end.

Definition Array_sort {A} (compare : A -> A -> Z) (l : list A) : list A :=
  foldr (sort_insert compare) [] l.

(** The comparator of [loadGallery]: [(a, b) => b.id - a.id]. *)
Definition byIdDescending (a b : Item) : Z := (id b - id a)%Z.

(** The order of the gallery: ids do not increase. *)
Definition idGe (a b : Item) : Prop := (id b <= id a)%Z.

(** ** The platform: tracks, streams, recorders *)

Inductive TrackKind := KindAudio | KindVideo.

(** What [track.getCapabilities()] advertises, as far as the component asks:
    the zoom range and the torch. *)
Record Capabilities := mkCaps {
  capZoom : option (Q * Q);
  capTorch : bool }.

(** A track; [trackCaps = None] when the track has no [getCapabilities]. *)
Record Track := mkTrack {
  trackKind : TrackKind;
  trackLive : bool;
  trackCaps : option Capabilities }.

Record MediaStream := mkStream { streamTracks : list Track }.

(** A track is named by its stream and its position in [getTracks()]. *)
Definition TrackRef : Type := nat * nat.

Inductive NumConstraint := Ideal (n : N) | Exact (n : N).

Record VideoConstraints := mkVideoC {
  cFacingMode : FacingMode;
  cWidth : option NumConstraint;
  cHeight : option NumConstraint;
  cFrameRate : option NumConstraint }.

Record StreamConstraints := mkStreamC { cAudio : bool; cVideo : VideoConstraints }.

Inductive TrackConstraint :=
| AdvZoom (z : Q)
| AdvTorch (on : bool).

Inductive RecorderState := Inactive | Recording | Paused.

(** ** Closures *)

(** The [useState] values a handler sees: those of the render that created
    it. *)
Record Closure := mkClosure {
  facingMode : FacingMode;
  mode : CameraMode;
  isRecording : bool;
  isProcessing : bool;
  flashOn : bool;
  liveEnabled : bool;
  timer : nat;
  aspect : AspectRatio;
  nightMode : bool;
  styleIndex : nat;
  zoom : Q;
  videoRes : Resolution }.

(** What [mr.onstop] of [stopVideoRecording] closes over: the timeout to
    clear, and [handleStop] with its render and its [resolve]. *)
Record StopHandler := mkStopHandler {
  stopTimeoutId : nat;
  stopClosure : Closure;
  stopPromise : nat }.

(** A recorder made by [startVideoRecording].  Its [ondataavailable],
    [onerror] and [onstart] are fixed at creation and close over the
    [resolve] of that call ([recResolve]); [onstop] is set later. *)
Record Recorder := mkRecorder {
  recStream : nat;
  recMime : option string;
  recState : RecorderState;
  recResolve : nat;
  onstop : option StopHandler }.

(** Callbacks handed to [setTimeout]. *)
Inductive TimerTask :=
| ToastClear
| FlashOverlayOff
| StartTimeout (mr : nat) (resolve : nat)
| StopTimeout (mr : nat) (cl : Closure) (resolve : nat)
| CountdownTick (cl : Closure) (i : nat).

Record Timer := mkTimer { due : Z; task : TimerTask }.

(** A call of [startCamera] suspended at [await getUserMedia(...)]: in the
    inner [try] ([relaxed = false]) or in its [catch], at the relaxed
    request; and a run of [init] of the main effect suspended at
    [await checkPermissionsStatus()]. *)
Inductive CameraTask :=
| AwaitStream (cl : Closure) (relaxed : bool)
| AwaitPermissions (cl : Closure).

(** A photo capture that has been suspended: at the secondary clip, or at
    [canvas.toBlob]. *)
Inductive PhotoTask :=
| AwaitLiveClip (cl : Closure)
| AwaitEncoding (cl : Closure) (liveBlob : option Blob).

(** Settled value of a promise. *)
Inductive Settled := Bool (b : bool) | Void.

(** What an [async] function hands back when its synchronous part ends: a
    value it returned at once, or the promise it is still to settle. *)
Inductive Outcome := Returned (v : Settled) | Awaiting (promise : nat).

(** Observable platform calls, oldest first. *)
Inductive Effect :=
| TrackStop (t : TrackRef)
| GetUserMedia (c : StreamConstraints)
| StreamGranted (stream : nat)
| Attach (stream : nat)
| ApplyConstraints (t : TrackRef) (c : TrackConstraint) (accepted : bool)
| RecorderNew (mr : nat) (stream : nat) (mime : option string)
| RecorderStart (mr : nat) (timeslice : N)
| RecorderStop (mr : nat)
| StoreAdd (key : Z)
| DrawImage (r : SourceRect) (filter : string).

(** ** The world: refs, state cells, platform state *)

Record VideoElement := mkVideo { srcObject : option nat; videoWidth : N; videoHeight : N }.

(** The canvas; [canvasContext] tells whether [getContext('2d')] gives a
    context.  Its [width] and [height] are [unsigned long]. *)
Record Canvas := mkCanvas {
  canvasContext : bool;
  canvasWidth : N;
  canvasHeight : N;
  ctxFilter : string }.

(** A camera the platform can grant; [deviceCaps] become the capabilities of
    the video track. *)
Record Device := mkDevice { deviceCaps : option Capabilities }.

Definition set_facingMode (v : FacingMode) (x : Closure) : Closure :=
  mkClosure v (mode x) (isRecording x) (isProcessing x) (flashOn x) (liveEnabled x)
    (timer x) (aspect x) (nightMode x) (styleIndex x) (zoom x) (videoRes x).
Definition set_mode (v : CameraMode) (x : Closure) : Closure :=
  mkClosure (facingMode x) v (isRecording x) (isProcessing x) (flashOn x) (liveEnabled x)
    (timer x) (aspect x) (nightMode x) (styleIndex x) (zoom x) (videoRes x).
Definition set_isRecording (v : bool) (x : Closure) : Closure :=
  mkClosure (facingMode x) (mode x) v (isProcessing x) (flashOn x) (liveEnabled x)
    (timer x) (aspect x) (nightMode x) (styleIndex x) (zoom x) (videoRes x).
Definition set_isProcessing (v : bool) (x : Closure) : Closure :=
  mkClosure (facingMode x) (mode x) (isRecording x) v (flashOn x) (liveEnabled x)
    (timer x) (aspect x) (nightMode x) (styleIndex x) (zoom x) (videoRes x).
Definition set_flashOn (v : bool) (x : Closure) : Closure :=
  mkClosure (facingMode x) (mode x) (isRecording x) (isProcessing x) v (liveEnabled x)
    (timer x) (aspect x) (nightMode x) (styleIndex x) (zoom x) (videoRes x).
Definition set_zoom (v : Q) (x : Closure) : Closure :=
  mkClosure (facingMode x) (mode x) (isRecording x) (isProcessing x) (flashOn x)
    (liveEnabled x) (timer x) (aspect x) (nightMode x) (styleIndex x) v (videoRes x).

(** The [useRef] cells of the component. *)
Record Refs := mkRefs {
  videoRef : option VideoElement;
  canvasRef : option Canvas;
  streamRef : option nat;
  mediaRecorderRef : option nat;
  recordedChunksRef : list Blob;
  isStartingRef : bool;
  isStoppingRef : bool }.

Definition set_videoRef (v : option VideoElement) (x : Refs) : Refs :=
  mkRefs v (canvasRef x) (streamRef x) (mediaRecorderRef x) (recordedChunksRef x)
    (isStartingRef x) (isStoppingRef x) .
Definition set_canvasRef (v : option Canvas) (x : Refs) : Refs :=
  mkRefs (videoRef x) v (streamRef x) (mediaRecorderRef x) (recordedChunksRef x)
    (isStartingRef x) (isStoppingRef x) .
Definition set_streamRef (v : option nat) (x : Refs) : Refs :=
  mkRefs (videoRef x) (canvasRef x) v (mediaRecorderRef x) (recordedChunksRef x)
    (isStartingRef x) (isStoppingRef x) .
Definition set_mediaRecorderRef (v : option nat) (x : Refs) : Refs :=
  mkRefs (videoRef x) (canvasRef x) (streamRef x) v (recordedChunksRef x)
    (isStartingRef x) (isStoppingRef x) .
Definition set_recordedChunksRef (v : list Blob) (x : Refs) : Refs :=
  mkRefs (videoRef x) (canvasRef x) (streamRef x) (mediaRecorderRef x) v
    (isStartingRef x) (isStoppingRef x) .
Definition set_isStartingRef (v : bool) (x : Refs) : Refs :=
  mkRefs (videoRef x) (canvasRef x) (streamRef x) (mediaRecorderRef x)
    (recordedChunksRef x) v (isStoppingRef x) .
Definition set_isStoppingRef (v : bool) (x : Refs) : Refs :=
  mkRefs (videoRef x) (canvasRef x) (streamRef x) (mediaRecorderRef x)
    (recordedChunksRef x) (isStartingRef x) v.

(** The [useState] cells: those a handler reads ([current]) and those only
    the view reads. *)
Record Cells := mkCells {
  current : Closure;
  hasPermission : option bool;
  countdown : option nat;
  gallery : list Item;
  showFlashOverlay : bool;
  toastMessage : option string }.

Definition set_current (v : Closure) (x : Cells) : Cells :=
  mkCells v (hasPermission x) (countdown x) (gallery x) (showFlashOverlay x)
    (toastMessage x) .
Definition set_hasPermission (v : option bool) (x : Cells) : Cells :=
  mkCells (current x) v (countdown x) (gallery x) (showFlashOverlay x) (toastMessage x).
Definition set_countdown (v : option nat) (x : Cells) : Cells :=
  mkCells (current x) (hasPermission x) v (gallery x) (showFlashOverlay x) (toastMessage x).
Definition set_gallery (v : list Item) (x : Cells) : Cells :=
  mkCells (current x) (hasPermission x) (countdown x) v (showFlashOverlay x)
    (toastMessage x) .
Definition set_showFlashOverlay (v : bool) (x : Cells) : Cells :=
  mkCells (current x) (hasPermission x) (countdown x) (gallery x) v (toastMessage x).
Definition set_toastMessage (v : option string) (x : Cells) : Cells :=
  mkCells (current x) (hasPermission x) (countdown x) (gallery x) (showFlashOverlay x) v.

(** Objects owned by the platform: every stream and recorder made so far,
    the object store, [Date.now()], the timers (an entry is [None] once fired
    or cleared), the promises, the suspended calls of [startCamera], the
    suspended photo captures and the trace. *)
Record Platform := mkPlatform {
  streams : list MediaStream;
  recorders : list Recorder;
  db : ObjectStore;
  clock : Z;
  timers : list (option Timer);
  promises : list (option Settled);
  cameraTasks : list (option CameraTask);
  photoTasks : list (option PhotoTask);
  log : list Effect }.

Definition set_streams (v : list MediaStream) (x : Platform) : Platform :=
  mkPlatform v (recorders x) (db x) (clock x) (timers x) (promises x) (cameraTasks x)
    (photoTasks x) (log x) .
Definition set_recorders (v : list Recorder) (x : Platform) : Platform :=
  mkPlatform (streams x) v (db x) (clock x) (timers x) (promises x) (cameraTasks x)
    (photoTasks x) (log x) .
Definition set_db (v : ObjectStore) (x : Platform) : Platform :=
  mkPlatform (streams x) (recorders x) v (clock x) (timers x) (promises x)
    (cameraTasks x) (photoTasks x) (log x) .
Definition set_clock (v : Z) (x : Platform) : Platform :=
  mkPlatform (streams x) (recorders x) (db x) v (timers x) (promises x) (cameraTasks x)
    (photoTasks x) (log x) .
Definition set_timers (v : list (option Timer)) (x : Platform) : Platform :=
  mkPlatform (streams x) (recorders x) (db x) (clock x) v (promises x) (cameraTasks x)
    (photoTasks x) (log x) .
Definition set_promises (v : list (option Settled)) (x : Platform) : Platform :=
  mkPlatform (streams x) (recorders x) (db x) (clock x) (timers x) v (cameraTasks x)
    (photoTasks x) (log x) .
Definition set_cameraTasks (v : list (option CameraTask)) (x : Platform) : Platform :=
  mkPlatform (streams x) (recorders x) (db x) (clock x) (timers x) (promises x) v
    (photoTasks x) (log x) .
Definition set_photoTasks (v : list (option PhotoTask)) (x : Platform) : Platform :=
  mkPlatform (streams x) (recorders x) (db x) (clock x) (timers x) (promises x)
    (cameraTasks x) v (log x) .
Definition set_log (v : list Effect) (x : Platform) : Platform :=
  mkPlatform (streams x) (recorders x) (db x) (clock x) (timers x) (promises x)
    (cameraTasks x) (photoTasks x) v.

(** *** Capacitor and the permissions plugin *)

Inductive PlatformName := PlatformAndroid | PlatformIos | PlatformWeb.

Inductive PermissionState :=
  Granted | Limited | Denied | Prompt | PromptWithRationale.

#[global] Instance PermissionState_eq_dec : EqDecision PermissionState.
Proof. solve_decision. Defined.

(** The answer of [Camera.checkPermissions()]. *)
Record PermissionStatus := mkPermissions {
  camera : PermissionState;
  photos : PermissionState }.

(** What Capacitor answers: [getPlatform()], and the outcome of the dynamic
    import of the camera plugin followed by [Camera.checkPermissions()]
    ([None] when either rejects). *)
Record Capacitor := mkCapacitor {
  getPlatform : PlatformName;
  checkPermissions : option PermissionStatus }.

(** [Capacitor.isNativePlatform()]: every platform but the web. *)
Definition isNativePlatform (c : Capacitor) : bool :=
  match getPlatform c with PlatformWeb => false | _ => true end.

(** [checkPermissionsStatus] of [utils/permissions.ts]. *)
Definition checkPermissionsStatus (c : Capacitor) : bool :=
  match getPlatform c with
  | PlatformAndroid =>
      match checkPermissions c with
      | Some result =>
          bool_decide (camera result = Granted)
          && (bool_decide (photos result = Granted)
              || bool_decide (photos result = Limited))
      | None => false
      end
  | _ => true
  end.

(** What the platform will answer: which constraints [getUserMedia] grants,
    what [MediaRecorder.isTypeSupported] accepts, which calls throw or
    reject, and what Capacitor reports. *)
Record Behaviour := mkBehaviour {
  capacitor : Capacitor;
  userMedia : StreamConstraints -> option Device;
  supportedTypes : list string;
  hasMediaRecorder : bool;
  recorderCtorThrows : bool;
  recorderStartThrows : bool;
  recorderStopThrows : bool;
  constraintsRejected : bool;
  storeAddFails : bool;
  storeGetAllFails : bool }.


(** Everything a handler can read or change. *)
Record World := mkWorld {
  refs : Refs;
  cells : Cells;
  plat : Platform;
  behaviour : Behaviour }.

Definition set_refs (v : Refs) (x : World) : World :=
  mkWorld v (cells x) (plat x) (behaviour x).
Definition set_cells (v : Cells) (x : World) : World :=
  mkWorld (refs x) v (plat x) (behaviour x).
Definition set_plat (v : Platform) (x : World) : World :=
  mkWorld (refs x) (cells x) v (behaviour x).

(** ** Handlers: state transformers that may throw *)

Inductive Res (A : Type) := Ok (a : A) | Throw (e : string).
Arguments Ok {A} a.
Arguments Throw {A} e.

Definition M (A : Type) : Type := World -> Res A * World.

#[global] Instance M_ret : MRet M := fun A a w => (Ok a, w).

#[global] Instance M_bind : MBind M := fun A B f m w =>
  match m w with
  | (Ok a, w') => f a w'
  | (Throw e, w') => (Throw e, w')
  end.

Definition throw {A} (e : string) : M A := fun w => (Throw e, w).

(** [try { m } catch (e) { h e }] *)
Definition tryCatch {A} (m : M A) (h : string -> M A) : M A := fun w =>
  match m w with
  | (Ok a, w') => (Ok a, w')
  | (Throw e, w') => h e w'
  end.

Definition gets {A} (f : World -> A) : M A := fun w => (Ok (f w), w).
Definition modify (f : World -> World) : M unit := fun w => (Ok tt, f w).

Definition modRefs (f : Refs -> Refs) : M unit :=
  modify (fun w => set_refs (f (refs w)) w).
Definition modCells (f : Cells -> Cells) : M unit :=
  modify (fun w => set_cells (f (cells w)) w).
Definition modCurrent (f : Closure -> Closure) : M unit :=
  modCells (fun c => set_current (f (current c)) c).
Definition modPlat (f : Platform -> Platform) : M unit :=
  modify (fun w => set_plat (f (plat w)) w).

Definition emit (e : Effect) : M unit :=
  modPlat (fun p => set_log (log p ++ [e]) p).

(** The world a handler leaves behind, whether it returned or threw. *)
Definition exec {A} (m : M A) (w : World) : World := snd (m w).

Definition returns {A} (m : M A) (w : World) : bool :=
  match fst (m w) with Ok _ => true | Throw _ => false end.

Fixpoint forEach {A} (f : A -> M unit) (l : list A) : M unit :=
  match l with
  | [] => mret tt
  | a :: l' => f a;; forEach f l'
  end.

(** *** Timers and promises *)

Definition setTimeout (t : TimerTask) (delay : Z) : M nat :=
  p ← gets plat;
  modPlat (set_timers (timers p ++ [Some (mkTimer (clock p + delay) t)]));;
  mret (length (timers p)).

Definition clearTimeout (k : nat) : M unit :=
  modPlat (fun p => set_timers (<[k := None]> (timers p)) p).

Definition newPromise (v : option Settled) : M nat :=
  p ← gets plat;
  modPlat (set_promises (promises p ++ [v]));;
  mret (length (promises p)).

(** [resolve(v)]: settles a pending promise, does nothing on a settled one. *)
Definition resolve (k : nat) (v : Settled) : M unit :=
  modPlat (fun p =>
    set_promises
      match promises p !! k with
      | Some None => <[k := Some v]> (promises p)
      | _ => promises p
      end p).

(** *** Streams and tracks *)

#[global] Instance TrackKind_eq_dec : EqDecision TrackKind.
Proof. solve_decision. Defined.

#[global] Instance RecorderState_eq_dec : EqDecision RecorderState.
Proof. solve_decision. Defined.

Definition stopped (t : Track) : Track := mkTrack (trackKind t) false (trackCaps t).

Definition getTracks (i : nat) : M (list TrackRef) :=
  p ← gets plat;
  mret (match streams p !! i with
        | Some s => imap (fun j _ => (i, j)) (streamTracks s)
        | None => []
        end).

(** [stream.getVideoTracks()[0]], [undefined] when there is none. *)
Definition videoTrackOf (p : Platform) (i : nat) : option TrackRef :=
  s ← streams p !! i;
  jt ← list_find (fun t => trackKind t = KindVideo) (streamTracks s);
  Some (i, jt.1).

Definition firstVideoTrack (i : nat) : M (option TrackRef) :=
  p ← gets plat; mret (videoTrackOf p i).

Definition lookupTrack (t : TrackRef) (p : Platform) : option Track :=
  s ← streams p !! t.1; streamTracks s !! t.2.

(** [t.getCapabilities ? t.getCapabilities() : {}] *)
Definition capabilitiesOf (p : Platform) (t : TrackRef) : Capabilities :=
  default (mkCaps None false) (tr ← lookupTrack t p; trackCaps tr).

(** [t.stop()] *)
Definition track_stop (t : TrackRef) : M unit :=
  modPlat (fun p =>
    set_streams
      (alter (fun s => mkStream (alter stopped t.2 (streamTracks s))) t.1 (streams p)) p);;
  emit (TrackStop t).

Definition getCapabilities (t : TrackRef) : M Capabilities :=
  p ← gets plat; mret (capabilitiesOf p t).

(** [t.applyConstraints({ advanced: [c] })]; the platform may reject. *)
Definition applyConstraints (t : TrackRef) (c : TrackConstraint) : M unit :=
  b ← gets behaviour;
  if constraintsRejected b
  then emit (ApplyConstraints t c false);; throw "OverconstrainedError"
  else emit (ApplyConstraints t c true).

(** The platform grants a request: a new stream with live tracks, a video
    track and, when asked for, an audio track. *)
Definition grantStream (d : Device) (audio : bool) : M nat :=
  p ← gets plat;
  let tracks :=
    mkTrack KindVideo true (deviceCaps d)
    :: (if audio then [mkTrack KindAudio true None] else []) in
  modPlat (set_streams (streams p ++ [mkStream tracks]));;
  emit (StreamGranted (length (streams p)));;
  mret (length (streams p)).

(** *** MediaRecorder *)

(** [MediaRecorder.isTypeSupported(m)]; where the platform has no
    [MediaRecorder], naming it throws. *)
Definition isTypeSupported (m : string) : M bool :=
  b ← gets behaviour;
  if hasMediaRecorder b then mret (bool_decide (m ∈ supportedTypes b))
  else throw "ReferenceError".

Definition newMediaRecorder (stream : nat) (mime : option string) (resolveId : nat)
  : M nat :=
  b ← gets behaviour;
  p ← gets plat;
  if negb (hasMediaRecorder b) then throw "ReferenceError"
  else if recorderCtorThrows b then throw "NotSupportedError"
  else
    modPlat (set_recorders
      (recorders p ++ [mkRecorder stream mime Inactive resolveId None]));;
    emit (RecorderNew (length (recorders p)) stream mime);;
    mret (length (recorders p)).

Definition set_recState (v : RecorderState) (r : Recorder) : Recorder :=
  mkRecorder (recStream r) (recMime r) v (recResolve r) (onstop r).
Definition set_onstop (v : option StopHandler) (r : Recorder) : Recorder :=
  mkRecorder (recStream r) (recMime r) (recState r) (recResolve r) v.

Definition modRecorder (mr : nat) (f : Recorder -> Recorder) : M unit :=
  modPlat (fun p => set_recorders (alter f mr (recorders p)) p).

(** [mr.state] *)
Definition recorderState (mr : nat) : M RecorderState :=
  p ← gets plat; mret (default Inactive (recState <$> recorders p !! mr)).

(** [mr.start(timeslice)] *)
Definition recorder_start (mr : nat) (timeslice : N) : M unit :=
  b ← gets behaviour;
  if recorderStartThrows b then throw "NotSupportedError"
  else modRecorder mr (set_recState Recording);; emit (RecorderStart mr timeslice).

(** [mr.stop()] *)
Definition recorder_stop (mr : nat) : M unit :=
  b ← gets behaviour;
  st ← recorderState mr;
  if bool_decide (st = Inactive) then throw "InvalidStateError"
  else if recorderStopThrows b then throw "UnknownError"
  else modRecorder mr (set_recState Inactive);; emit (RecorderStop mr).

(** ** IndexedDB helper *)

Definition dbAdd (r : MediaRecord) : M Z :=
  b ← gets behaviour;
  p ← gets plat;
  if storeAddFails b then throw "AbortError"
  else
    let ks := store_add r (db p) in
    modPlat (set_db ks.2);; emit (StoreAdd ks.1);; mret ks.1.

Definition dbGetAll : M (list Item) :=
  b ← gets behaviour;
  p ← gets plat;
  if storeGetAllFails b then throw "AbortError" else mret (store_getAll (db p)).

(** ** The component [LiquidGlassCamera] *)

(** Calling an [async] function without awaiting it: a throw in its body
    rejects a promise nobody looks at and does not reach the caller. *)
Definition detached {A} (m : M A) : M unit :=
  tryCatch (m;; mret tt) (fun _ => mret tt).

Definition showToast (msg : string) : M unit :=
  modCells (set_toastMessage (Some msg));;
  _ ← setTimeout ToastClear 3000;
  mret tt.

Definition setIsProcessing (v : bool) : M unit := modCurrent (set_isProcessing v).
Definition setIsRecording (v : bool) : M unit := modCurrent (set_isRecording v).

(** [streamRef.current?.getVideoTracks()[0]] *)
Definition currentVideoTrack : M (option TrackRef) :=
  r ← gets refs;
  match streamRef r with
  | Some i => firstVideoTrack i
  | None => mret None
  end.

Definition applyZoom (z : Q) (track : option TrackRef) : M unit :=
  t ← match track with
      | Some t => mret (Some t)
      | None => currentVideoTrack
      end;
  match t with
  | None => mret tt
  | Some t =>
      cap ← getCapabilities t;
      match capZoom cap with
      | Some _ => tryCatch (applyConstraints t (AdvZoom z)) (fun _ => mret tt)
      | None => mret tt
      end
  end.

Definition handleZoomSelect (z : Q) : M unit :=
  modCurrent (set_zoom z);;
  detached (applyZoom z None).


Definition toggleFlash (cl : Closure) : M unit :=
  let newState := negb (flashOn cl) in
  modCurrent (set_flashOn newState);;
  track ← currentVideoTrack;
  match track with
  | Some t =>
      capabilities ← getCapabilities t;
      if capTorch capabilities
      then tryCatch (applyConstraints t (AdvTorch newState)) (fun _ => mret tt)
      else mret tt
  | None => mret tt
  end.

(** *** [startCamera] *)

Definition wantsAudio (cl : Closure) : bool :=
  match mode cl with ModeVideo => true | ModePhoto => false end.

Definition videoConstraints (cl : Closure) : VideoConstraints :=
  match mode cl, videoRes cl with
  | ModeVideo, R720p =>
      mkVideoC (facingMode cl) (Some (Exact 1280)) (Some (Exact 720)) (Some (Ideal 30))
  | ModeVideo, R1080p =>
      mkVideoC (facingMode cl) (Some (Exact 1920)) (Some (Exact 1080)) (Some (Ideal 30))
  | ModePhoto, _ =>
      mkVideoC (facingMode cl) (Some (Ideal 1920)) (Some (Ideal 1080)) None
  end.

Definition fallbackConstraints (cl : Closure) : VideoConstraints :=
  mkVideoC (facingMode cl)
    (Some (Ideal (match videoRes cl with R720p => 1280 | R1080p => 1920 end)))
    None None.

(** The opening statement of [startCamera]: stop every track of the stream
    held so far. *)
Definition releaseStream : M unit :=
  r ← gets refs;
  match streamRef r with
  | Some i => ts ← getTracks i; forEach track_stop ts
  | None => mret tt
  end.

Definition streamConstraints (cl : Closure) (relaxed : bool) : StreamConstraints :=
  mkStreamC (wantsAudio cl)
    (if relaxed then fallbackConstraints cl else videoConstraints cl).

(** [await navigator.mediaDevices.getUserMedia(...)]: the request goes out
    and the call is suspended in slot [k] until the platform settles it. *)
Definition awaitUserMedia (k : option nat) (cl : Closure) (relaxed : bool) : M nat :=
  emit (GetUserMedia (streamConstraints cl relaxed));;
  p ← gets plat;
  match k with
  | Some k =>
      modPlat (set_cameraTasks (<[k := Some (AwaitStream cl relaxed)]> (cameraTasks p)));;
      mret k
  | None =>
      modPlat (set_cameraTasks (cameraTasks p ++ [Some (AwaitStream cl relaxed)]));;
      mret (length (cameraTasks p))
  end.

(** Attach the stream to the preview and re-apply the zoom. *)
Definition attachStream (cl : Closure) : M unit :=
  r ← gets refs;
  match videoRef r, streamRef r with
  | Some v, Some i =>
      modRefs (set_videoRef (Some (mkVideo (Some i) (videoWidth v) (videoHeight v))));;
      emit (Attach i);;
      track ← firstVideoTrack i;
      match track with
      | Some t => detached (applyZoom (zoom cl) (Some t))
      | None => mret tt
      end
  | _, _ => mret tt
  end.

Definition applyTorch (cl : Closure) : M unit :=
  if flashOn cl then
    track ← currentVideoTrack;
    match track with
    | Some t => tryCatch (applyConstraints t (AdvTorch true)) (fun _ => mret tt)
    | None => mret tt
    end
  else mret tt.

(** The outer [catch] of [startCamera]. *)
Definition cameraFailed : M unit :=
  modCells (set_hasPermission (Some false));;
  showToast "Camera access failed".

(** [startCamera] up to its first suspension: the release, then the first
    request. *)
Definition startCamera_begin (cl : Closure) : M nat :=
  releaseStream;;
  awaitUserMedia None cl false.

(** [startCamera] from [streamRef.current = stream] to its end. *)
Definition startCamera_granted (cl : Closure) (stream : nat) : M unit :=
  modRefs (set_streamRef (Some stream));;
  tryCatch
    (attachStream cl;;
     modCells (set_hasPermission (Some true));;
     applyTorch cl)
    (fun _ => cameraFailed).

(** The platform settles the request of the call suspended in slot [k].  A
    grant resumes the call after the [await].  A rejection of the first
    request lands in the inner [catch], which sends the relaxed request and
    suspends again; a rejection of the relaxed request lands in the outer
    [catch]. *)
Definition startCamera_settle (k : nat) : M unit :=
  p ← gets plat;
  b ← gets behaviour;
  match cameraTasks p !! k with
  | Some (Some (AwaitStream cl relaxed)) =>
      modPlat (fun p => set_cameraTasks (<[k := None]> (cameraTasks p)) p);;
      match userMedia b (streamConstraints cl relaxed) with
      | Some d =>
          stream ← grantStream d (wantsAudio cl);
          startCamera_granted cl stream
      | None =>
          if relaxed then cameraFailed
          else _ ← awaitUserMedia (Some k) cl true; mret tt
      end
  | _ => mret tt
  end.

(** *** Gallery *)

Definition loadGallery : M unit :=
  tryCatch
    (items ← dbGetAll;
     modCells (set_gallery (Array_sort byIdDescending items)))
    (fun _ => mret tt).

(** *** The main effect *)

(** [init] up to its first suspension: on a native platform it waits for
    [checkPermissionsStatus]; on the web it calls [startCamera], which is not
    awaited and runs up to its own suspension. *)
Definition init (cl : Closure) : M unit :=
  b ← gets behaviour;
  if isNativePlatform (capacitor b)
  then modPlat (fun p => set_cameraTasks (cameraTasks p ++ [Some (AwaitPermissions cl)]) p)
  else _ ← startCamera_begin cl; mret tt.

(** [init] after [await checkPermissionsStatus()]: the camera is started
    only when the permissions are granted. *)
Definition init_checked (cl : Closure) : M unit :=
  b ← gets behaviour;
  if checkPermissionsStatus (capacitor b)
  then _ ← startCamera_begin cl; mret tt
  else modCells (set_hasPermission (Some false)).

(** The permissions plugin answers the run of [init] suspended in slot
    [k]. *)
Definition init_settle (k : nat) : M unit :=
  p ← gets plat;
  match cameraTasks p !! k with
  | Some (Some (AwaitPermissions cl)) =>
      modPlat (fun p => set_cameraTasks (<[k := None]> (cameraTasks p)) p);;
      init_checked cl
  | _ => mret tt
  end.

(** One run of the effect on [startCamera]: the cleanup of the run before,
    which stops the tracks of the stream held by then (at mount none is held
    and there is nothing to clean up), then [init()] and [loadGallery()]. *)
Definition cameraEffect (cl : Closure) : M unit :=
  releaseStream;;
  init cl;;
  loadGallery.

(** *** Recording: start *)

Definition mimeTypes : list string :=
  ["video/webm;codecs=vp9"; "video/webm;codecs=vp8"; "video/webm"].

(** The [for ... of] loop over [mimeTypes]: the first supported type, or the
    empty string. *)
Fixpoint selectMime (l : list string) : M string :=
  match l with
  | [] => mret ""
  | mime :: l' =>
      ok ← isTypeSupported mime;
      if ok : bool then mret mime else selectMime l'
  end.

(** The three ways a start attempt gives up after it raised the guard. *)
Definition abandonStart (msg : string) (resolveId : nat) : M unit :=
  showToast msg;;
  modRefs (set_isStartingRef false);;
  setIsProcessing false;;
  resolve resolveId (Bool false).

Definition startVideoRecording (cl : Closure) : M Outcome :=
  r ← gets refs;
  match streamRef r with
  | None => mret (Returned (Bool false))
  | Some stream =>
      if isRecording cl || isStartingRef r then mret (Returned (Bool false))
      else
        modRefs (set_isStartingRef true);;
        setIsProcessing true;;
        p ← newPromise None;
        tryCatch
          (selectedMime ← selectMime mimeTypes;
           webm ← isTypeSupported "video/webm";
           if String.eqb selectedMime "" && negb webm
           then abandonStart "MediaRecorder not supported" p
           else
             modRefs (set_recordedChunksRef []);;
             let options :=
               if String.eqb selectedMime "" then None else Some selectedMime in
             mr ← newMediaRecorder stream options p;
             _ ← setTimeout (StartTimeout mr p) 2500;
             modRefs (set_mediaRecorderRef (Some mr));;
             recorder_start mr 1000)
          (fun _ => abandonStart "Unable to start recording" p);;
        mret (Awaiting p)
  end.

(** [mr.ondataavailable] *)
Definition ondataavailable (data : option Blob) : M unit :=
  match data with
  | Some d =>
      if (0 <? blobSize d)%nat
      then modRefs (fun r => set_recordedChunksRef (recordedChunksRef r ++ [d]) r)
      else mret tt
  | None => mret tt
  end.

(** [mr.onerror] *)
Definition onerror (resolveId : nat) : M unit :=
  showToast "Recording error";;
  r ← gets refs;
  if isStartingRef r then
    modRefs (set_isStartingRef false);;
    setIsProcessing false;;
    resolve resolveId (Bool false)
  else mret tt.

(** [mr.onstart] *)
Definition onstart (resolveId : nat) : M unit :=
  setIsRecording true;;
  modRefs (set_isStartingRef false);;
  setIsProcessing false;;
  showToast "Recording started";;
  resolve resolveId (Bool true).

(** The safety timeout armed by [startVideoRecording]; [mr] and [resolveId]
    are those of the call that armed it. *)
Definition startTimeout (mr resolveId : nat) : M unit :=
  r ← gets refs;
  if isStartingRef r then
    modRefs (set_isStartingRef false);;
    setIsProcessing false;;
    st ← recorderState mr;
    (if bool_decide (st = Inactive) then mret tt else recorder_stop mr);;
    modRefs (set_mediaRecorderRef None);;
    showToast "Recording failed to start";;
    resolve resolveId (Bool false)
  else mret tt.

(** *** Recording: stop *)

(** [handleStop]; its awaits ([dbAdd], [loadGallery]) are run through. *)
Definition handleStop (cl : Closure) (resolveId : nat) : M unit :=
  tryCatch
    (r ← gets refs;
     p ← gets plat;
     let blob := newBlob (recordedChunksRef r) "video/webm" in
     if (0 <? blobSize blob)%nat then
       _ ← dbAdd (mkMedia TypeVideo blob None (clock p) (MetaVideo (facingMode cl)));
       loadGallery;;
       showToast "Recording saved"
     else showToast "Recording empty")
    (fun _ => showToast "Failed to save video");;
  modRefs (set_mediaRecorderRef None);;
  setIsRecording false;;
  setIsProcessing false;;
  modRefs (set_isStoppingRef false);;
  resolve resolveId Void.

Definition stopVideoRecording (cl : Closure) : M Outcome :=
  r ← gets refs;
  if isStoppingRef r then mret (Returned Void)
  else
    modRefs (set_isStoppingRef true);;
    setIsProcessing true;;
    p ← newPromise None;
    match mediaRecorderRef r with
    | None => detached (handleStop cl p)
    | Some mr =>
        st ← recorderState mr;
        if bool_decide (st = Inactive) then detached (handleStop cl p)
        else
          timeoutId ← setTimeout (StopTimeout mr cl p) 4000;
          modRecorder mr (set_onstop (Some (mkStopHandler timeoutId cl p)));;
          tryCatch (recorder_stop mr)
            (fun _ => clearTimeout timeoutId;; detached (handleStop cl p))
    end;;
    mret (Awaiting p).

(** The stop timeout: [mr.onstop = null; handleStop()]. *)
Definition stopTimeout (mr : nat) (cl : Closure) (resolveId : nat) : M unit :=
  modRecorder mr (set_onstop None);;
  detached (handleStop cl resolveId).

(** [mr.onstop] as set by [stopVideoRecording]. *)
Definition onstopHandler (h : StopHandler) : M unit :=
  clearTimeout (stopTimeoutId h);;
  detached (handleStop (stopClosure h) (stopPromise h)).

(** *** Photo pipeline *)

Definition nightFilter : string := "brightness(1.3) contrast(1.1) saturate(0.8)".

(** [`${currentFilter} ${nightFilter}`.trim()]; no entry of [STYLES] starts
    or ends with a blank. *)
Definition filterString (currentFilter : string) (night : bool) : string :=
  if night then currentFilter +:+ " " +:+ nightFilter else currentFilter.

(** [STYLES[styleIndex]], read for a property. *)
Definition styleAt (i : nat) : M FilterStyle :=
  match STYLES !! i with
  | Some s => mret s
  | None => throw "TypeError"
  end.

Definition suspendPhoto (t : PhotoTask) : M unit :=
  modPlat (fun p => set_photoTasks (photoTasks p ++ [Some t]) p).

(** [takePhoto] from the canvas on, up to the call of [canvas.toBlob].  The
    canvas takes the size of the crop as [unsigned long]s, and setting its
    size resets the state of its context; [drawImage] is given the crop as
    it was computed. *)
Definition drawPhoto (cl : Closure) (liveBlob : option Blob) : M unit :=
  r ← gets refs;
  match videoRef r, canvasRef r with
  | Some video, Some canvas =>
      if negb (canvasContext canvas) then mret tt
      else
        let rect :=
          sourceRect (aspect cl) (num (videoWidth video)) (num (videoHeight video)) in
        let width := reflected 300 (sWidth rect) in
        let height := reflected 150 (sHeight rect) in
        modRefs (set_canvasRef (Some (mkCanvas true width height "none")));;
        style ← styleAt (styleIndex cl);
        let filter := filterString (styleFilter style) (nightMode cl) in
        modRefs (set_canvasRef (Some (mkCanvas true width height filter)));;
        emit (DrawImage rect filter);;
        suspendPhoto (AwaitEncoding cl liveBlob)
  | _, _ => mret tt
  end.

(** [takePhoto] up to its first suspension.  The secondary clip is taken by
    a recorder local to the call; the platform supplies its outcome when the
    capture resumes. *)
Definition takePhoto (cl : Closure) : M unit :=
  modCells (set_showFlashOverlay true);;
  _ ← setTimeout FlashOverlayOff 250;
  r ← gets refs;
  b ← gets behaviour;
  if liveEnabled cl && hasMediaRecorder b && bool_decide (is_Some (streamRef r))
  then suspendPhoto (AwaitLiveClip cl)
  else drawPhoto cl None.

(** The callback of [canvas.toBlob]. *)
Definition onEncoded (cl : Closure) (liveBlob blob : option Blob) : M unit :=
  match blob with
  | Some b =>
      p ← gets plat;
      style ← styleAt (styleIndex cl);
      _ ← dbAdd (mkMedia TypePhoto b liveBlob (clock p)
                   (MetaPhoto (styleName style) (aspect cl) (nightMode cl)));
      detached loadGallery
  | None => mret tt
  end.

(** *** The unified trigger *)

Definition dispatch (cl : Closure) : M unit :=
  match mode cl with
  | ModeVideo =>
      if negb (isRecording cl)
      then _ ← startVideoRecording cl; mret tt
      else _ ← stopVideoRecording cl; mret tt
  | ModePhoto => detached (takePhoto cl)
  end.

(** [triggerCapture] up to its first suspension. *)
Definition triggerCapture (cl : Closure) : M unit :=
  r ← gets refs;
  if isStartingRef r || isStoppingRef r || isProcessing cl then mret tt
  else if (0 <? timer cl)%nat && negb (isRecording cl) then
    modCells (set_countdown (Some (timer cl)));;
    _ ← setTimeout (CountdownTick cl (timer cl)) 1000;
    mret tt
  else dispatch cl.

(** [triggerCapture] resumed after the wait of the iteration with counter
    [i]. *)
Definition countdownTick (cl : Closure) (i : nat) : M unit :=
  if (0 <? i - 1)%nat then
    modCells (set_countdown (Some (i - 1)%nat));;
    _ ← setTimeout (CountdownTick cl (i - 1)%nat) 1000;
    mret tt
  else
    modCells (set_countdown None);;
    r ← gets refs;
    if isStartingRef r || isStoppingRef r then mret tt else dispatch cl.

(** ** The event loop *)

(** What can happen to the mounted component.  Handlers invoked from the
    view run with the closure of the latest render.  [CameraEffect] is a
    run of the main effect, at mount and after a change of facing mode, mode
    or resolution.  [PermissionsChecked] is the answer of the permissions
    plugin to a pending [checkPermissionsStatus], [StreamSettled] the
    platform's answer to a pending [getUserMedia]. *)
Inductive Event :=
| Trigger
| CameraEffect
| PermissionsChecked (k : nat)
| StreamSettled (k : nat)
| SwitchCamera
| SelectMode (m : CameraMode)
| ZoomSelect (z : Q)
| ToggleFlash
| Elapse (ms : Z)
| TimerFires (k : nat)
| RecorderStarted (mr : nat)
| RecorderData (mr : nat) (data : Blob)
| RecorderError (mr : nat)
| RecorderStopped (mr : nat)
| LiveClipDone (k : nat) (liveBlob : option Blob)
| Encoded (k : nat) (blob : option Blob).

Definition runTimer (t : TimerTask) : M unit :=
  match t with
  | ToastClear => modCells (set_toastMessage None)
  | FlashOverlayOff => modCells (set_showFlashOverlay false)
  | StartTimeout mr resolveId => startTimeout mr resolveId
  | StopTimeout mr cl resolveId => stopTimeout mr cl resolveId
  | CountdownTick cl i => countdownTick cl i
  end.

Definition withRecorder (mr : nat) (f : Recorder -> M unit) : M unit :=
  p ← gets plat;
  match recorders p !! mr with
  | Some r => f r
  | None => mret tt
  end.

Definition handle (e : Event) : M unit :=
  match e with
  | Trigger => c ← gets cells; triggerCapture (current c)
  | CameraEffect => c ← gets cells; cameraEffect (current c)
  | PermissionsChecked k => init_settle k
  | StreamSettled k => startCamera_settle k
  | SwitchCamera => modCurrent (fun c => set_facingMode (toggle (facingMode c)) c)
  | SelectMode m => modCurrent (set_mode m)
  | ZoomSelect z => handleZoomSelect z
  | ToggleFlash => c ← gets cells; detached (toggleFlash (current c))
  | Elapse ms => modPlat (fun p => set_clock (clock p + Z.max 0 ms) p)
  | TimerFires k =>
      p ← gets plat;
      match timers p !! k with
      | Some (Some t) =>
          if (due t <=? clock p)%Z
          then clearTimeout k;; runTimer (task t)
          else mret tt
      | _ => mret tt
      end
  | RecorderStarted mr => withRecorder mr (fun r => onstart (recResolve r))
  | RecorderData mr data => withRecorder mr (fun _ => ondataavailable (Some data))
  | RecorderError mr => withRecorder mr (fun r => onerror (recResolve r))
  | RecorderStopped mr =>
      withRecorder mr (fun r =>
        match onstop r with
        | Some h => onstopHandler h
        | None => mret tt
        end)
  | LiveClipDone k liveBlob =>
      p ← gets plat;
      match photoTasks p !! k with
      | Some (Some (AwaitLiveClip cl)) =>
          modPlat (fun p => set_photoTasks (<[k := None]> (photoTasks p)) p);;
          drawPhoto cl liveBlob
      | _ => mret tt
      end
  | Encoded k blob =>
      p ← gets plat;
      match photoTasks p !! k with
      | Some (Some (AwaitEncoding cl liveBlob)) =>
          modPlat (fun p => set_photoTasks (<[k := None]> (photoTasks p)) p);;
          onEncoded cl liveBlob blob
      | _ => mret tt
      end
  end.

(** One task of the event loop; an uncaught exception ends the task. *)
Definition step (w : World) (e : Event) : World := exec (handle e) w.

Definition run (es : list Event) (w : World) : World := foldl step w es.

(** A photo capture is in flight while one of its suspensions is pending. *)
Definition photoInFlight (w : World) : bool :=
  bool_decide (Exists is_Some (photoTasks (plat w))).

(** *** The component as mounted *)

Definition initialClosure : Closure :=
  mkClosure FacingEnvironment ModePhoto false false false false 0 AspectFull false 0 1
    R1080p.

Definition initialWorld (b : Behaviour) : World :=
  mkWorld
    (mkRefs (Some (mkVideo None 0 0)) (Some (mkCanvas true 300 150 "none")) None None []
       false false)
    (mkCells initialClosure None None [] false None)
    (mkPlatform [] [] emptyStore 0 [] [] [] [] [])
    b.

(** ** Notions used in the statements *)

(** The guard at the head of [triggerCapture]. *)
Definition guardBusy (cl : Closure) (w : World) : bool :=
  isStartingRef (refs w) || isStoppingRef (refs w) || isProcessing cl.

(** A stream is active while one of its tracks is live. *)
Definition activeStream (s : MediaStream) : bool := existsb trackLive (streamTracks s).

Definition activeCount (w : World) : nat :=
  length (List.filter activeStream (streams (plat w))).

(** The stream held in [streamRef], if it is active. *)
Definition heldActive (w : World) : bool :=
  match streamRef (refs w) with
  | Some i => default false (activeStream <$> streams (plat w) !! i)
  | None => false
  end.

(** The track [applyZoom] acts on when called without a track: the first
    video track of the held stream, provided it advertises [zoom]. *)
Definition zoomTarget (w : World) : option TrackRef :=
  i ← streamRef (refs w);
  t ← videoTrackOf (plat w) i;
  match capZoom (capabilitiesOf (plat w) t) with
  | Some _ => Some t
  | None => None
  end.

(** The events that run a part of the main effect or of [startCamera]. *)
Definition cameraEvent (e : Event) : bool :=
  match e with
  | CameraEffect | PermissionsChecked _ | StreamSettled _ => true
  | _ => false
  end.

(** Sizes of frames: integers below 2^32 ([unsigned long]). *)
Definition frameSize (a : Q) : Prop :=
  exists n : Z, a = inject_Z n /\ (0 <= n < 4294967296)%Z.

(** The relative error of one rounding: 2^-53. *)
Definition eps : Q := 1 # 9007199254740992.

(** A hundred-thousandth of a pixel. *)
Definition tolerance : Q := 1 # 100000.

(** *** The release of the held stream *)

(** Tracks [js] of a list of tracks stopped one after the other. *)
Definition stopAt (js : list nat) (ts : list Track) : list Track :=
  foldl (fun ts j => alter stopped j ts) ts js.

(** The [stop] calls that release the held stream, in order. *)
Definition releaseTrace (w : World) : list Effect :=
  match streamRef (refs w) with
  | Some i =>
      match streams (plat w) !! i with
      | Some s => (fun j => TrackStop (i, j)) <$> seq 0 (length (streamTracks s))
      | None => []
      end
  | None => []
  end.

(** The world once the held stream is released: all its tracks ended. *)
Definition released (w : World) : World :=
  match streamRef (refs w) with
  | Some i =>
      set_plat
        (set_log (log (plat w) ++ releaseTrace w)
           (set_streams
              (alter (fun s => mkStream (stopped <$> streamTracks s)) i (streams (plat w)))
              (plat w)))
        w
  | None => w
  end.

Definition isTrackStop (e : Effect) : bool :=
  match e with TrackStop _ => true | _ => false end.

Definition noStops (l : list Effect) : bool :=
  forallb (fun e => negb (isTrackStop e)) l.

(** *** Sample platforms and data *)

Definition sampleCaps : Capabilities := mkCaps (Some (1, 4)%Q) true.

(** A platform on which nothing fails. *)
Definition quiet : Behaviour :=
  mkBehaviour (mkCapacitor PlatformWeb None)
    (fun _ => Some (mkDevice (Some sampleCaps))) mimeTypes true
    false false false false false false.

(** A device with a back camera only. *)
Definition backCameraOnly : Behaviour :=
  mkBehaviour (mkCapacitor PlatformWeb None)
    (fun c =>
       match cFacingMode (cVideo c) with
       | FacingEnvironment => Some (mkDevice (Some sampleCaps))
       | FacingUser => None
       end)
    mimeTypes true false false false false false false.

Definition chunkA : Blob := mkBlob [Byte.x1a; Byte.x45] "video/webm".
Definition chunkB : Blob := mkBlob [Byte.xdf; Byte.xa3; Byte.x9f] "video/webm".
Definition chunkC : Blob := mkBlob [Byte.x42; Byte.x86] "video/webm".
Definition jpegA : Blob := mkBlob [Byte.xff; Byte.xd8; Byte.xff] "image/jpeg".

Definition sampleVideo (b : Blob) : MediaRecord :=
  mkMedia TypeVideo b None 0 (MetaVideo FacingEnvironment).

Definition samplePhoto (b : Blob) : MediaRecord :=
  mkMedia TypePhoto b None 0 (MetaPhoto "Normal" AspectFull false).

(** *** Sample runs *)

(** Mounted, camera running, photo mode. *)
Definition cameraReady : World :=
  run [CameraEffect; StreamSettled 0] (initialWorld quiet).

(** Mounted, camera running, photo mode; then one press of the shutter. *)
Definition photoPending : World := step cameraReady Trigger.

(** Mounted, switched to video mode, camera running. *)
Definition videoReady : World :=
  run [SelectMode ModeVideo; CameraEffect; StreamSettled 1] cameraReady.

(** Video mode, shutter pressed, the recorder has not reported yet. *)
Definition videoStarting : World := step videoReady Trigger.

(** Video mode on a device without a front camera, after a switch to the
    front camera: the back stream was released and no stream was granted. *)
Definition cameraLost : World :=
  run [CameraEffect; StreamSettled 0; SelectMode ModeVideo; CameraEffect;
       StreamSettled 1; SwitchCamera; CameraEffect; StreamSettled 2; StreamSettled 2]
    (initialWorld backCameraOnly).

(** Video mode, a start attempt ended by an error of the recorder. *)
Definition startFailed : World := step videoStarting (RecorderError 0).

(** Mount, a change of mode while the first request for the camera is
    pending, and both requests granted afterwards. *)
Definition overlappingStarts : list Event :=
  [CameraEffect; SelectMode ModeVideo; CameraEffect; StreamSettled 0; StreamSettled 1].

(** A later switch of camera, its request granted. *)
Definition laterSwitch : list Event :=
  [SwitchCamera; CameraEffect; StreamSettled 2].

(** A recording whose recorder is slow to stop: the shutter is pressed
    again after 1.5 s, the recorder reports nothing for 4 s, and the stop
    timeout (timer 2, due at 5500) finalizes the recording from [chunkA].
    Timers 0 and 1 are the start timeout and the end of the toast. *)
Definition slowStop : list Event :=
  [Trigger; RecorderStarted 0; Elapse 1000; RecorderData 0 chunkA; Elapse 500;
   Trigger; Elapse 4000; TimerFires 0; TimerFires 1; TimerFires 2; Elapse 500].

(** The next recording, with recorder 1.  Recorder 0 delivers its last
    chunk, [chunkB], after the start. *)
Definition nextRecording : list Event :=
  [Trigger; RecorderStarted 1; RecorderData 0 chunkB; Elapse 1000;
   RecorderData 1 chunkC; Trigger; RecorderStopped 1].

(** The blobs of the stored items, oldest first. *)
Definition storedBlobs (w : World) : list Blob :=
  (fun it => mediaBlob (item it)) <$> entries (db (plat w)).

(** A short recording, saved, and a second start 1.2 s after the first;
    the second recorder never reports.  Timer 0 is the start timeout of the
    first attempt (due at 2500), timer 4 that of the second (due at 3700). *)
Definition restartWithinTimeout : list Event :=
  [Trigger; Elapse 100; RecorderStarted 0; Elapse 400; RecorderData 0 chunkA;
   Trigger; Elapse 50; RecorderStopped 0; Elapse 650;
   Trigger;
   Elapse 1300; TimerFires 0;
   Elapse 1200; TimerFires 4].

(** The start timeouts that are still armed. *)
Definition armedStartTimeouts (w : World) : list (option Timer) :=
  List.filter
    (fun t => match t with Some (mkTimer _ (StartTimeout _ _)) => true | _ => false end)
    (timers (plat w)).

(** *** Notions for the store, the recording and the capture *)

(** Keys of the store ascend and lie below its key generator. *)
Definition storeWf (s : ObjectStore) : Prop :=
  StronglySorted (fun a b => (id a < id b)%Z) (entries s) /\
  Forall (fun it => (id it < keyGenerator s)%Z) (entries s).

(** The records [rs] added to a store one after the other. *)
Definition addAll (rs : list MediaRecord) (w : World) : World :=
  foldl (fun w r => exec (dbAdd r) w) w rs.

(** The gallery shows, sorted, what the store held at some earlier time. *)
Definition galleryFromStore (w : World) : Prop :=
  exists l, l `prefix_of` entries (db (plat w)) /\
            gallery (cells w) = Array_sort byIdDescending l.

(** The settings of a render that only the settings panel changes. *)
Definition panelSettings (cl : Closure) : bool * nat * nat * AspectRatio * bool * Resolution :=
  (liveEnabled cl, timer cl, styleIndex cl, aspect cl, nightMode cl, videoRes cl).

(** The type [startVideoRecording] selects: the first entry of [mimeTypes]
    the platform supports. *)
Definition firstSupported (b : Behaviour) (l : list string) : option string :=
  head (filter (fun m => m ∈ supportedTypes b) l).

(** A start attempt given up with the toast [msg]: both flags cleared and
    the promise [p] of the attempt settled to [false]. *)
Definition startAbandoned (p : nat) (msg : string) (w' : World) : Prop :=
  isStartingRef (refs w') = false /\ isProcessing (current (cells w')) = false /\
  promises (plat w') !! p = Some (Some (Bool false)) /\
  toastMessage (cells w') = Some msg.

(** The promises after [resolve k v]. *)
Definition settle (k : nat) (v : Settled) (ps : list (option Settled))
  : list (option Settled) :=
  match ps !! k with
  | Some None => <[k := Some v]> ps
  | _ => ps
  end.

(** The toasts of [handleStop]. *)
Definition stopToasts : list string :=
  ["Recording saved"; "Recording empty"; "Failed to save video"].

(** Video mode, a recording under way that has delivered [chunkB]. *)
Definition recordingNow : World :=
  run [Trigger; RecorderStarted 0; RecorderData 0 chunkB; Elapse 800] videoReady.

(** The entry [handleStop] writes for the chunks [chunks], if any. *)
Definition savedVideo (cl : Closure) (chunks : list Blob) (now : Z) (s : ObjectStore)
    (fails : bool) : list Item :=
  let blob := newBlob chunks "video/webm" in
  if (0 <? blobSize blob)%nat && negb fails
  then [mkItem (keyGenerator s) (mkMedia TypeVideo blob None now (MetaVideo (facingMode cl)))]
  else [].


(** The waits of a countdown: [n] times, a second passes and the timer armed
    last fires; [k0] timers existed before. *)
Definition countdownEvents (k0 n : nat) : list Event :=
  flat_map (fun j => [Elapse 1000; TimerFires (k0 + j)]) (seq 0 n).

(** The world [j] seconds into a countdown from [n]. *)
Definition counting (cl : Closure) (n j : nat) (w : World) : World :=
  set_plat
    (set_clock (clock (plat w) + 1000 * Z.of_nat j)
       (set_timers
          (timers (plat w) ++ replicate j None ++
           [Some (mkTimer (clock (plat w) + 1000 * Z.of_nat (S j))
                    (CountdownTick cl (n - j)))])
          (plat w)))
    (set_cells (set_countdown (Some (n - j)%nat) (cells w)) w).

(** The world when the countdown from [n] has ended. *)
Definition counted (n : nat) (w : World) : World :=
  set_plat
    (set_clock (clock (plat w) + 1000 * Z.of_nat n)
       (set_timers (timers (plat w) ++ replicate n None) (plat w)))
    (set_cells (set_countdown None (cells w)) w).

(** The record [canvas.toBlob]'s callback stores. *)
Definition photoRecord (cl : Closure) (style : FilterStyle) (blob : Blob)
    (liveBlob : option Blob) (now : Z) : MediaRecord :=
  mkMedia TypePhoto blob liveBlob now
    (MetaPhoto (styleName style) (aspect cl) (nightMode cl)).

(** Events that run no part of the main effect or of [startCamera]. *)
Definition sessionKept (es : list Event) : bool :=
  forallb (fun e => negb (cameraEvent e)) es.

(** A platform on Android where the camera is granted and the photos are
    not. *)
Definition photosDenied : Behaviour :=
  mkBehaviour (mkCapacitor PlatformAndroid (Some (mkPermissions Granted Denied)))
    (fun _ => Some (mkDevice (Some sampleCaps))) mimeTypes true
    false false false false false false.

(** The render of [cameraReady] with the timer set to 3 seconds. *)
Definition timed : Closure :=
  mkClosure FacingEnvironment ModePhoto false false false false 3 AspectFull false 0 1
    R1080p.

(** The camera running in photo mode, the preview showing frames of
    1280 by 800 pixels. *)
Definition previewing : World :=
  set_refs (set_videoRef (Some (mkVideo (Some 0%nat) 1280 800)) (refs cameraReady))
    cameraReady.

(** The render of [previewing] with the aspect control at 4:3, the fourth
    style and night mode. *)
Definition styled : Closure :=
  mkClosure FacingEnvironment ModePhoto false false false false 0 Aspect43 true 3 1 R1080p.

(** * Properties *)

Local Open Scope Q_scope.

(** ** Numbers: elementary facts *)

Lemma Qgtb_true a b : Qgtb a b = true <-> b < a.
Proof.
  unfold Qgtb. rewrite negb_true_iff, <- not_true_iff_false, Qle_bool_iff.
  split; [apply Qnot_le_lt | apply Qlt_not_le].
Qed.

Lemma Qgtb_false a b : Qgtb a b = false <-> a <= b.
Proof. unfold Qgtb. rewrite negb_false_iff. apply Qle_bool_iff. Qed.

Lemma num_nonneg n : 0 <= num n.
Proof. unfold num, Qle; simpl. lia. Qed.

Lemma Math_min_cases a b :
  (a <= b /\ Math_min a b = a) \/ (b < a /\ Math_min a b = b).
Proof.
  unfold Math_min. destruct (Qle_bool a b) eqn:E.
  - left. split; [by apply Qle_bool_iff | done].
  - right. split; [| done]. apply Qnot_le_lt. rewrite <- Qle_bool_iff. congruence.
Qed.

(** ** Numbers: doubles *)

Lemma pow2_pos z : 0 < 2 ^ z.
Proof. by apply Qpower_0_lt. Qed.

Lemma pow2_Z n : (0 <= n)%Z -> inject_Z (2 ^ n) == 2 ^ n.
Proof. intros H. by rewrite Zpower_Qpower. Qed.

Lemma pow2_succ z : 2 ^ (z + 1) == 2 * 2 ^ z.
Proof. rewrite Qpower_plus by discriminate. change (2 ^ 1) with 2. ring. Qed.

Lemma pow2_pred z : 2 * 2 ^ (z - 1) == 2 ^ z.
Proof.
  rewrite <- pow2_succ. by replace (z - 1 + 1)%Z with z by lia.
Qed.

Lemma pow2_add a b : 2 ^ (a + b) == 2 ^ a * 2 ^ b.
Proof. by apply Qpower_plus. Qed.

Lemma pow2_cancel a : 2 ^ a * 2 ^ (- a) == 1.
Proof. rewrite <- pow2_add. by replace (a + - a)%Z with 0%Z by lia. Qed.

Lemma ilog2_spec x : 0 < x -> 2 ^ ilog2 x <= x /\ x < 2 ^ (ilog2 x + 1).
Proof.
  intros Hx. destruct x as [p q]. unfold ilog2. cbn [Qnum Qden].
  assert (0 < p)%Z as Hp by (unfold Qlt in Hx; cbn in Hx; lia).
  set (lp := Z.log2 p). set (lq := Z.log2 (Z.pos q)).
  destruct (Z.log2_spec p Hp) as [Hp1 Hp2]. fold lp in Hp1, Hp2.
  destruct (Z.log2_spec (Z.pos q) eq_refl) as [Hq1 Hq2]. fold lq in Hq1, Hq2.
  assert (0 <= lp)%Z as Hlp by apply Z.log2_nonneg.
  assert (0 <= lq)%Z as Hlq by apply Z.log2_nonneg.
  assert (2 ^ lp <= inject_Z p) as HA1
    by (rewrite <- pow2_Z by done; by rewrite <- Zle_Qle).
  assert (inject_Z p < 2 * 2 ^ lp) as HA2.
  { rewrite <- pow2_succ, <- pow2_Z by lia. by rewrite <- Zlt_Qlt. }
  assert (2 ^ lq <= inject_Z (Z.pos q)) as HB1
    by (rewrite <- pow2_Z by done; by rewrite <- Zle_Qle).
  assert (inject_Z (Z.pos q) < 2 * 2 ^ lq) as HB2.
  { rewrite <- pow2_succ, <- pow2_Z by lia. by rewrite <- Zlt_Qlt. }
  pose proof (pow2_pos lp) as HA0. pose proof (pow2_pos lq) as HB0.
  assert (2 ^ (lp - lq) * 2 ^ lq == 2 ^ lp) as He0.
  { rewrite <- pow2_add. by replace (lp - lq + lq)%Z with lp by lia. }
  pose proof (pow2_pos (lp - lq)) as HE0.
  assert (p # q == inject_Z p / inject_Z (Z.pos q)) as Hpq by apply Qmake_Qdiv.
  assert (0 < inject_Z (Z.pos q)) as HD0 by reflexivity.
  assert ((p # q) * inject_Z (Z.pos q) == inject_Z p) as Hx'.
  { rewrite Hpq. field. by intros H%Qeq_alt. }
  generalize dependent (inject_Z p). generalize dependent (inject_Z (Z.pos q)).
  generalize dependent (2 ^ lp). generalize dependent (2 ^ lq).
  intros B HB0 A HA0 He0 D HB1 HB2 HD0 P HA1 HA2 _ Hx'.
  set (x := p # q) in *. clearbody x.
  destruct (Qle_bool (2 ^ (lp - lq)) x) eqn:Ht.
  - apply Qle_bool_iff in Ht. split; [done |].
    rewrite pow2_succ. set (E := 2 ^ (lp - lq)) in *. clearbody E. nra.
  - assert (x < 2 ^ (lp - lq)) as Ht'.
    { apply Qnot_le_lt. intros H. apply Qle_bool_iff in H. congruence. }
    replace (lp - lq - 1 + 1)%Z with (lp - lq)%Z by lia. split; [| done].
    pose proof (pow2_pred (lp - lq)) as Hpred.
    pose proof (pow2_pos (lp - lq - 1)) as HF0.
    set (E := 2 ^ (lp - lq)) in *. set (F := 2 ^ (lp - lq - 1)) in *.
    clearbody E F. nra.
Qed.

Lemma rne_err y : y - (1 # 2) <= inject_Z (rne y) /\ inject_Z (rne y) <= y + (1 # 2).
Proof.
  unfold rne. pose proof (Qfloor_le y) as H1. pose proof (Qlt_floor y) as H2.
  rewrite inject_Z_plus in H2. change (inject_Z 1) with 1 in H2.
  destruct (Qcompare_spec (y - inject_Z (Qfloor y)) (1 # 2)) as [H | H | H];
    try destruct (Z.even _); rewrite ?inject_Z_plus; change (inject_Z 1) with 1; lra.
Qed.

Lemma rne_Z y k : y == inject_Z k -> rne y = k.
Proof.
  intros H. unfold rne.
  assert (Qfloor y = k) as -> by (rewrite H; apply Qfloor_Z).
  destruct (Qcompare_spec (y - inject_Z k) (1 # 2)) as [H' | H' | H']; [lra | done | lra].
Qed.

Lemma fl_0 x : x == 0 -> fl x = 0.
Proof. intros H. unfold fl. apply Qeq_bool_iff in H. by rewrite H. Qed.

Lemma fl_pos_eq x :
  0 < x -> fl x == inject_Z (rne (x * 2 ^ (52 - ilog2 x))) * 2 ^ (ilog2 x - 52).
Proof.
  intros Hx. unfold fl.
  destruct (Qeq_bool x 0) eqn:E; [apply Qeq_bool_iff in E; lra |].
  rewrite Qred_correct.
  assert (Qabs x = x) as ->; [| done].
  destruct x as [[| p | p] q]; done.
Qed.

Lemma fl_err x : 0 <= x -> x * (1 - eps) <= fl x /\ fl x <= x * (1 + eps).
Proof.
  intros Hx. destruct (Qlt_le_dec 0 x) as [Hpos | Hle].
  2: { rewrite (fl_0 x) by lra. unfold eps. lra. }
  rewrite (fl_pos_eq x Hpos).
  destruct (ilog2_spec x Hpos) as [He1 He2]. set (e := ilog2 x) in *. clearbody e.
  destruct (rne_err (x * 2 ^ (52 - e))) as [Hr1 Hr2].
  set (m := inject_Z (rne (x * 2 ^ (52 - e)))) in *. clearbody m.
  pose proof (pow2_pos (e - 52)) as Hs0.
  assert (2 ^ (52 - e) * 2 ^ (e - 52) == 1) as Hc.
  { rewrite <- pow2_add. by replace (52 - e + (e - 52))%Z with 0%Z by lia. }
  assert (2 ^ (e - 52) == 2 ^ e * (1 # 4503599627370496)) as Hs.
  { unfold Z.sub. rewrite pow2_add. reflexivity. }
  set (s := 2 ^ (52 - e)) in *. set (t := 2 ^ (e - 52)) in *. set (E := 2 ^ e) in *.
  clearbody s t E. unfold eps. nra.
Qed.

Lemma fl_nonneg x : 0 <= x -> 0 <= fl x.
Proof. intros H. destruct (fl_err x H) as [H1 _]. unfold eps in H1. nra. Qed.

(** A number with a mantissa below 2^53 is a double. *)
Lemma fl_exact x k j : (0 <= k < 2 ^ 53)%Z -> x == inject_Z k * 2 ^ j -> fl x == x.
Proof.
  intros Hk Hx. destruct (Z.eq_dec k 0%Z) as [-> | Hk0].
  { rewrite (fl_0 x); [| rewrite Hx; ring]. rewrite Hx. ring. }
  assert (0 < x) as Hpos.
  { rewrite Hx. apply Qmult_lt_0_compat; [| apply pow2_pos].
    change 0 with (inject_Z 0). rewrite <- Zlt_Qlt. lia. }
  rewrite (fl_pos_eq x Hpos).
  destruct (ilog2_spec x Hpos) as [He1 He2]. set (e := ilog2 x) in *. clearbody e.
  assert (e < 53 + j)%Z as He.
  { apply (Qpower_lt_compat_l_inv 2); [| reflexivity].
    eapply Qle_lt_trans; [exact He1 |]. rewrite Hx, pow2_add.
    apply Qmult_lt_r; [apply pow2_pos |].
    rewrite <- pow2_Z by lia. rewrite <- Zlt_Qlt. lia. }
  assert (x * 2 ^ (52 - e) == inject_Z (k * 2 ^ (52 - e + j))) as Hy.
  { rewrite inject_Z_mult, pow2_Z by lia. rewrite Hx.
    replace (52 - e + j)%Z with (j + (52 - e))%Z by lia. rewrite pow2_add. ring. }
  rewrite (rne_Z _ _ Hy), inject_Z_mult, pow2_Z by lia. rewrite Hx.
  rewrite <- Qmult_assoc, <- pow2_add.
  by replace (52 - e + j + (e - 52))%Z with j by lia.
Qed.

(** ** Photo pipeline: properties of the source rectangle *)

(** Division by the constants of the crop, as multiplication, for [lra]. *)
Ltac crop_lra :=
  unfold Qdiv in *;
  change (/ 2) with (1 # 2) in *;
  change (/ 3) with (1 # 3) in *;
  change (/ 4) with (1 # 4) in *;
  lra.

(** C6. With aspect 1:1 the source rectangle of any frame is the centered
    square of side [min(width, height)]: both sides equal the minimum, which
    is one of the two frame sizes and exceeds neither, and the margins left
    and right, and top and bottom, are equal.  On a 1920x1080 frame it is the
    1080x1080 square with 420 pixels trimmed on the left and 420 on the
    right. *)
Theorem crop_square_centered :
  (forall w h : N,
     let r := sourceRect Aspect11 (num w) (num h) in
     let side := Math_min (num w) (num h) in
     sWidth r = side /\ sHeight r = side /\
     (side == num w \/ side == num h) /\ side <= num w /\ side <= num h /\
     sx r == trimRight (num w) r /\ sy r == trimBottom (num h) r /\
     0 <= sx r /\ 0 <= sy r) /\
  (let r := sourceRect Aspect11 (num 1920) (num 1080) in
   sx r == 420 /\ sy r == 0 /\ sWidth r == 1080 /\ sHeight r == 1080 /\
   trimRight (num 1920) r == 420 /\ trimBottom (num 1080) r == 0).
Proof.
  split; [| vm_compute; repeat split; discriminate].
  intros w h. cbv zeta. unfold sourceRect, trimRight, trimBottom. cbn [sx sy sWidth sHeight].
  destruct (Math_min_cases (num w) (num h)) as [[Hle ->] | [Hlt ->]];
    repeat split; try reflexivity; try (left; reflexivity); try (right; reflexivity);
    crop_lra.
Qed.

Lemma four_thirds : fdiv 4 3 = 6004799503160661 # 4503599627370496.
Proof. vm_compute. reflexivity. Qed.

Lemma three_quarters : fdiv 3 4 = 3 # 4.
Proof. vm_compute. reflexivity. Qed.

Lemma frameSize_num n : (n < 4294967296)%N -> frameSize (num n).
Proof. intros H. exists (Z.of_N n). split; [done | lia]. Qed.

Lemma frameSize_bounds a : frameSize a -> 0 <= a /\ a <= 4294967295.
Proof.
  intros (n & -> & Hn). split.
  - change 0 with (inject_Z 0). rewrite <- Zle_Qle. lia.
  - change 4294967295 with (inject_Z 4294967295). rewrite <- Zle_Qle. lia.
Qed.

(** Between integers there is no room for a fraction. *)
Lemma frameSize_step a b :
  frameSize a -> frameSize b -> 3 * a < 4 * b + 1 -> 3 * a <= 4 * b.
Proof.
  intros (n & -> & Hn) (m & -> & Hm) H.
  change 3 with (inject_Z 3) in *. change 4 with (inject_Z 4) in *.
  change 1 with (inject_Z 1) in *.
  rewrite <- !inject_Z_mult, <- ?inject_Z_plus in *.
  rewrite <- Zle_Qle. rewrite <- Zlt_Qlt in H. lia.
Qed.

Lemma fmul_four_thirds a :
  frameSize a ->
  let t := fmul a (6004799503160661 # 4503599627370496) in
  a * (6004799503160661 # 4503599627370496) * (1 - eps) <= t /\
  t <= a * (6004799503160661 # 4503599627370496) * (1 + eps).
Proof.
  intros Ha. apply fl_err. destruct (frameSize_bounds a Ha). nra.
Qed.

Lemma fmul_three_quarters a : frameSize a -> fmul a (3 # 4) == a * (3 # 4).
Proof.
  intros (n & -> & Hn). apply (fl_exact _ (3 * n) (-2)); [lia |].
  rewrite inject_Z_mult. change (2 ^ (-2)) with (1 # 4). change (inject_Z 3) with 3. ring.
Qed.

(** Half the difference, computed on doubles. *)
Lemma half_difference a b :
  b <= a -> a <= 4294967295 -> 0 <= b ->
  let s := fdiv (fsub a b) 2 in
  0 <= s /\ s + b <= a /\ Qabs (s - (a - (s + b))) <= 1 # 1000000.
Proof.
  intros Hba Ha Hb. cbv zeta. unfold fdiv, fsub, Qdiv. change (/ 2) with (1 # 2).
  destruct (fl_err (a - b)) as [H1 H2]; [lra |].
  assert (0 <= fl (a - b)) as H0 by (apply fl_nonneg; lra).
  set (f := fl (a - b)) in *. clearbody f.
  destruct (fl_err (f * (1 # 2))) as [H3 H4]; [lra |].
  set (s := fl (f * (1 # 2))) in *. clearbody s.
  unfold eps in *. repeat split; try lra.
  apply Qabs_Qle_condition. lra.
Qed.

Lemma frameSize_lt a b :
  frameSize a -> frameSize b -> 3 * a < 4 * b -> 3 * a + 1 <= 4 * b.
Proof.
  intros (n & -> & Hn) (m & -> & Hm) H.
  change 3 with (inject_Z 3) in *. change 4 with (inject_Z 4) in *.
  change 1 with (inject_Z 1) in *.
  rewrite <- !inject_Z_mult, <- ?inject_Z_plus in *.
  rewrite <- Zle_Qle. rewrite <- Zlt_Qlt in H. lia.
Qed.

Lemma frameSize_gt a b :
  frameSize a -> frameSize b -> 4 * b < 3 * a -> 4 * b + 1 <= 3 * a.
Proof.
  intros (n & -> & Hn) (m & -> & Hm) H.
  change 3 with (inject_Z 3) in *. change 4 with (inject_Z 4) in *.
  change 1 with (inject_Z 1) in *.
  rewrite <- !inject_Z_mult, <- ?inject_Z_plus in *.
  rewrite <- Zle_Qle. rewrite <- Zlt_Qlt in H. lia.
Qed.

Ltac crop_goals :=
  repeat match goal with
  | |- _ /\ _ => split
  | |- Qabs _ <= _ => apply Qabs_Qle_condition
  end;
  try reflexivity; try lra.

(** C7, amended.  With aspect 4:3 the source rectangle of any frame,
    landscape or portrait, lies inside the frame (its width and height are at
    most the native ones, so nothing is upscaled) and keeps one of the two
    dimensions whole, at offset 0 (the frame is cropped, not scaled).  It is
    centered, and its long side is to its short side as 4 to 3, up to the
    rounding of the doubles the code computes with: the two margins differ,
    and the sides miss the ratio, by less than a hundred-thousandth of a
    pixel.  The dimension that is cut is the one the frame has in excess of
    4:3: the longer one when the frame is more elongated than 4:3, the shorter
    one when the frame is closer to a square, where the cut side is exactly
    three quarters of the other. *)
Theorem crop_4_3_within_frame (w h : N) :
  (w < 4294967296)%N -> (h < 4294967296)%N ->
  let W := num w in
  let H := num h in
  let r := sourceRect Aspect43 W H in
  (0 <= sx r /\ 0 <= sy r /\ 0 <= sWidth r /\ 0 <= sHeight r /\
   sx r + sWidth r <= W /\ sy r + sHeight r <= H) /\
  ((sx r = 0 /\ sWidth r = W) \/ (sy r = 0 /\ sHeight r = H)) /\
  (Qabs (sx r - trimRight W r) <= tolerance /\
   Qabs (sy r - trimBottom H r) <= tolerance) /\
  (if Qgtb W H then Qabs (3 * sWidth r - 4 * sHeight r) <= tolerance
   else Qabs (4 * sWidth r - 3 * sHeight r) <= tolerance) /\
  (if Qgtb W H then
     match Qcompare (3 * W) (4 * H) with
     | Gt => sHeight r = H /\ sWidth r < W
     | Lt => sWidth r = W /\ sHeight r == (3 # 4) * W /\ sHeight r < H
     | Eq => sHeight r == H /\ W - tolerance <= sWidth r
     end
   else
     match Qcompare (3 * H) (4 * W) with
     | Gt => sWidth r = W /\ sHeight r < H
     | Lt => sHeight r = H /\ sWidth r == (3 # 4) * H /\ sWidth r < W
     | Eq => sWidth r == W /\ H - tolerance <= sHeight r
     end).
Proof.
  intros Hw Hh. cbv zeta.
  pose proof (frameSize_num w Hw) as FW. pose proof (frameSize_num h Hh) as FH.
  generalize dependent (num w). generalize dependent (num h). intros H FH W FW.
  destruct (frameSize_bounds W FW) as [W0 W1]. destruct (frameSize_bounds H FH) as [H0 H1].
  pose proof (fmul_four_thirds H FH) as [TW1 TW2].
  pose proof (fmul_four_thirds W FW) as [TH1 TH2].
  pose proof (fmul_three_quarters W FW) as QW.
  pose proof (fmul_three_quarters H FH) as QH.
  cbv beta iota zeta delta [sourceRect trimRight trimBottom].
  rewrite four_thirds, three_quarters.
  set (tw := fmul H (6004799503160661 # 4503599627370496)) in *.
  set (th := fmul W (6004799503160661 # 4503599627370496)) in *.
  set (qh := fmul W (3 # 4)) in *. set (qw := fmul H (3 # 4)) in *.
  clearbody tw th qh qw. unfold eps, tolerance in *.
  destruct (Qgtb W H) eqn:EWH; [apply Qgtb_true in EWH | apply Qgtb_false in EWH].
  - destruct (Qgtb W tw) eqn:Etw; [apply Qgtb_true in Etw | apply Qgtb_false in Etw];
      cbn [sx sy sWidth sHeight].
    + destruct (half_difference W tw) as (S0 & S1 & S2); [lra .. |].
      apply Qabs_Qle_condition in S2.
      set (s := fdiv (fsub W tw) 2) in *. clearbody s.
      destruct (Qcompare_spec (3 * W) (4 * H)) as [E | E | E].
      * split; [crop_goals |]. split; [by right |]. crop_goals.
      * apply (frameSize_lt W H FW FH) in E. lra.
      * split; [crop_goals |]. split; [by right |]. crop_goals.
    + assert (3 * W <= 4 * H) as Hfit by (apply frameSize_step; [done .. | lra]).
      destruct (half_difference H qh) as (S0 & S1 & S2); [lra .. |].
      apply Qabs_Qle_condition in S2.
      set (s := fdiv (fsub H qh) 2) in *. clearbody s.
      destruct (Qcompare_spec (3 * W) (4 * H)) as [E | E | E].
      * split; [crop_goals |]. split; [by left |]. crop_goals.
      * split; [crop_goals |]. split; [by left |]. crop_goals.
      * lra.
  - destruct (Qgtb H th) eqn:Eth; [apply Qgtb_true in Eth | apply Qgtb_false in Eth];
      cbn [sx sy sWidth sHeight].
    + destruct (half_difference H th) as (S0 & S1 & S2); [lra .. |].
      apply Qabs_Qle_condition in S2.
      set (s := fdiv (fsub H th) 2) in *. clearbody s.
      destruct (Qcompare_spec (3 * H) (4 * W)) as [E | E | E].
      * split; [crop_goals |]. split; [by left |]. crop_goals.
      * apply (frameSize_lt H W FH FW) in E. lra.
      * split; [crop_goals |]. split; [by left |]. crop_goals.
    + assert (3 * H <= 4 * W) as Hfit by (apply frameSize_step; [done .. | lra]).
      destruct (half_difference W qw) as (S0 & S1 & S2); [lra .. |].
      apply Qabs_Qle_condition in S2.
      set (s := fdiv (fsub W qw) 2) in *. clearbody s.
      destruct (Qcompare_spec (3 * H) (4 * W)) as [E | E | E].
      * split; [crop_goals |]. split; [by right |]. crop_goals.
      * split; [crop_goals |]. split; [by right |]. crop_goals.
      * lra.
Qed.

Lemma crop_4_3_within_frame_witness :
  let W := num 1280 in
  let H := num 800 in
  let r := sourceRect Aspect43 W H in
  (0 <= sx r /\ 0 <= sy r /\ 0 <= sWidth r /\ 0 <= sHeight r /\
   sx r + sWidth r <= W /\ sy r + sHeight r <= H) /\
  ((sx r = 0 /\ sWidth r = W) \/ (sy r = 0 /\ sHeight r = H)) /\
  (Qabs (sx r - trimRight W r) <= tolerance /\
   Qabs (sy r - trimBottom H r) <= tolerance) /\
  Qabs (3 * sWidth r - 4 * sHeight r) <= tolerance /\
  sHeight r = H /\ sWidth r < W.
Proof. exact (crop_4_3_within_frame 1280 800 eq_refl eq_refl). Defined.

(** A landscape frame closer to a square than 4:3: at 1200x1000 the width,
    the longer dimension, is kept whole and the height, the shorter one, is
    cut from 1000 to 900. *)
Lemma crop_4_3_cuts_shorter_dimension :
  let W := num 1200 in
  let H := num 1000 in
  let r := sourceRect Aspect43 W H in
  H < W /\ r = mkRect 0 50 1200 900 /\ sWidth r = W /\ sHeight r < H.
Proof. vm_compute. repeat split. Qed.

(** The ratio and the centering are not exact on doubles: at 1280x800 the
    width computed is not four thirds of the height, and on a strip of
    1280x100 the left margin is not the right one. *)
Example crop_4_3_rounded :
  (let r := sourceRect Aspect43 (num 1280) (num 800) in
   ~ 3 * sWidth r == 4 * sHeight r) /\
  (let r := sourceRect Aspect43 (num 1280) (num 100) in
   ~ sx r == trimRight (num 1280) r).
Proof. split; vm_compute; discriminate. Qed.

(** ** Media store: sorting *)

Section Sorting.
Context {A : Type} (compare : A -> A -> Z).

Lemma sort_insert_perm a l : Permutation (sort_insert compare a l) (a :: l).
Proof.
  induction l as [| b l IH]; cbn; [done |].
  destruct (compare a b <=? 0)%Z; [done |].
  rewrite IH. apply perm_swap.
Qed.

Lemma Array_sort_perm l : Permutation (Array_sort compare l) l.
Proof.
  induction l as [| a l IH]; cbn; [done |].
  rewrite sort_insert_perm. by constructor.
Qed.

End Sorting.

Lemma sort_insert_sorted a l :
  StronglySorted idGe l -> StronglySorted idGe (sort_insert byIdDescending a l).
Proof.
  induction 1 as [| b l Hs IH Hb]; cbn.
  - repeat constructor.
  - unfold byIdDescending at 1. destruct (Z.leb_spec (id b - id a) 0).
    + constructor; [by constructor |].
      constructor; [unfold idGe; lia |].
      eapply Forall_impl; [exact Hb |]. unfold idGe. intros; cbn in *. lia.
    + constructor; [exact IH |].
      rewrite (sort_insert_perm byIdDescending a l).
      constructor; [unfold idGe; lia | exact Hb].
Qed.

Lemma Array_sort_sorted l : StronglySorted idGe (Array_sort byIdDescending l).
Proof.
  induction l as [| a l IH]; cbn; [constructor |]. by apply sort_insert_sorted.
Qed.

(** Sorting a list that ends with its largest id: that item comes first. *)
Lemma Array_sort_snoc l a :
  Forall (fun b => (id b < id a)%Z) l ->
  Array_sort byIdDescending (l ++ [a]) = a :: Array_sort byIdDescending l.
Proof.
  unfold Array_sort. rewrite foldr_app. cbn [foldr sort_insert].
  induction 1 as [| b l Hb Hl IH]; cbn [foldr]; [done |].
  rewrite IH. cbn [sort_insert]. unfold byIdDescending at 1.
  destruct (Z.leb_spec (id a - id b) 0); [lia | done].
Qed.

(** ** Media store: the gallery *)

(** Unfolds the plumbing of handlers down to functions on worlds. *)
Ltac handler :=
  cbv beta iota zeta delta
    [exec returns detached tryCatch throw showToast abandonStart
     setTimeout clearTimeout newPromise resolve setIsProcessing setIsRecording
     dbAdd dbGetAll loadGallery emit recorderState recorder_start recorder_stop
     newMediaRecorder isTypeSupported getCapabilities firstVideoTrack
     currentVideoTrack applyConstraints suspendPhoto styleAt withRecorder
     modRecorder modRefs modCells modCurrent modPlat gets modify
     mbind M_bind mret M_ret fst snd].

(** Case analysis on the innermost scrutinee of the goal. *)
Ltac split_case :=
  match goal with
  | |- context [match ?x with _ => _ end] =>
      lazymatch x with
      | context [match _ with _ => _ end] => fail
      | _ => destruct x eqn:?
      end
  end.

Lemma loadGallery_gallery w :
  gallery (cells (exec loadGallery w)) =
  if storeGetAllFails (behaviour w) then gallery (cells w)
  else Array_sort byIdDescending (store_getAll (db (plat w))).
Proof. handler. by destruct (storeGetAllFails (behaviour w)). Qed.

Lemma dbAdd_ok r w :
  storeAddFails (behaviour w) = false ->
  dbAdd r w =
  (Ok (keyGenerator (db (plat w))),
   set_plat
     (set_log (log (plat w) ++ [StoreAdd (keyGenerator (db (plat w)))])
        (set_db (store_add r (db (plat w))).2 (plat w))) w).
Proof. intros H. handler. by rewrite H. Qed.

(** C9. [loadGallery] puts into the gallery every value of the object store,
    ordered by id, largest first.  After three successive [dbAdd] on a store
    whose ids are all below its key generator, the gallery starts with the
    third record, then the second, then the first, and continues with what
    it showed before. *)
Theorem gallery_most_recent_first (w : World) (r1 r2 r3 : MediaRecord) :
  storeGetAllFails (behaviour w) = false ->
  (let g := gallery (cells (exec loadGallery w)) in
   Permutation g (store_getAll (db (plat w))) /\ StronglySorted idGe g) /\
  (storeAddFails (behaviour w) = false ->
   Forall (fun it => (id it < keyGenerator (db (plat w)))%Z) (entries (db (plat w))) ->
   let k := keyGenerator (db (plat w)) in
   gallery (cells (exec (dbAdd r1;; dbAdd r2;; dbAdd r3;; loadGallery) w)) =
   mkItem (k + 2) r3 :: mkItem (k + 1) r2 :: mkItem k r1
     :: gallery (cells (exec loadGallery w))).
Proof.
  intros Hget. split.
  - cbv zeta. rewrite loadGallery_gallery, Hget.
    split; [apply Array_sort_perm | apply Array_sort_sorted].
  - intros Hadd Hinv. cbv zeta. rewrite loadGallery_gallery, Hget.
    unfold exec. unfold mbind at 1 2 3, M_bind.
    rewrite (dbAdd_ok r1 w Hadd).
    set (w1 := set_plat _ w).
    rewrite (dbAdd_ok r2 w1 Hadd).
    set (w2 := set_plat _ w1).
    rewrite (dbAdd_ok r3 w2 Hadd).
    set (w3 := set_plat _ w2).
    fold (exec loadGallery w3). rewrite loadGallery_gallery.
    replace (storeGetAllFails (behaviour w3)) with false by done.
    subst w3 w2 w1. cbn. unfold store_getAll.
    set (k := keyGenerator (db (plat w))) in *.
    replace (k + 1 + 1)%Z with (k + 2)%Z by lia.
    change (foldr (sort_insert byIdDescending) []) with (Array_sort byIdDescending).
    rewrite !Array_sort_snoc; [done | | |].
    + eapply Forall_impl; [exact Hinv |]. intros; cbn in *. lia.
    + apply Forall_app. split; [| repeat constructor; cbn; lia].
      eapply Forall_impl; [exact Hinv |]. intros; cbn in *. lia.
    + repeat (apply Forall_app; split); try (repeat constructor; cbn; lia).
      eapply Forall_impl; [exact Hinv |]. intros; cbn in *. lia.
Qed.

(** Witness of C9: a video, a photo and a video saved into a fresh store. *)
Lemma gallery_most_recent_first_witness :
  gallery (cells (exec (dbAdd (sampleVideo chunkA);; dbAdd (samplePhoto jpegA);;
                        dbAdd (sampleVideo chunkB);; loadGallery) (initialWorld quiet))) =
  [mkItem 3 (sampleVideo chunkB); mkItem 2 (samplePhoto jpegA);
   mkItem 1 (sampleVideo chunkA)].
Proof.
  apply (gallery_most_recent_first (initialWorld quiet)); [reflexivity .. | constructor].
Defined.

(** ** Recording: finalization *)

(** What [handleStop] does to the object store. *)
Lemma handleStop_entries cl resolveId w :
  let blob := newBlob (recordedChunksRef (refs w)) "video/webm" in
  entries (db (plat (exec (handleStop cl resolveId) w))) =
  entries (db (plat w)) ++
  if (0 <? blobSize blob)%nat && negb (storeAddFails (behaviour w))
  then [mkItem (keyGenerator (db (plat w)))
          (mkMedia TypeVideo blob None (clock (plat w)) (MetaVideo (facingMode cl)))]
  else [].
Proof.
  cbv zeta. unfold handleStop. handler.
  repeat (split_case; cbn); rewrite ?app_nil_r; reflexivity.
Qed.

(** C3. [handleStop] builds one blob from the buffered chunks.  When its size
    is 0 the store, and with it the trace of store writes, stay as they
    were, the toast reports the empty recording, and a later [loadGallery]
    shows what it would have shown before.  When its size is positive and
    the write succeeds, the store gains exactly one entry, of type video,
    holding that blob, under the next key. *)
Theorem finalization_skips_empty_recording (cl : Closure) (resolveId : nat) (w : World) :
  let blob := newBlob (recordedChunksRef (refs w)) "video/webm" in
  let w' := exec (handleStop cl resolveId) w in
  match blobSize blob with
  | O =>
      db (plat w') = db (plat w) /\ log (plat w') = log (plat w) /\
      toastMessage (cells w') = Some "Recording empty" /\
      gallery (cells (exec loadGallery w')) = gallery (cells (exec loadGallery w))
  | S _ =>
      if storeAddFails (behaviour w)
      then db (plat w') = db (plat w) /\
           toastMessage (cells w') = Some "Failed to save video"
      else entries (db (plat w')) =
             entries (db (plat w)) ++
             [mkItem (keyGenerator (db (plat w)))
                (mkMedia TypeVideo blob None (clock (plat w)) (MetaVideo (facingMode cl)))] /\
           toastMessage (cells w') = Some "Recording saved"
  end.
Proof.
  cbv zeta. destruct (blobSize _) eqn:E.
  - rewrite !loadGallery_gallery. unfold handleStop. handler. rewrite E. cbn.
    by destruct (storeGetAllFails (behaviour w)).
  - unfold handleStop. handler. rewrite E. cbn.
    destruct (storeAddFails (behaviour w)); cbn; [done |].
    by destruct (storeGetAllFails (behaviour w)).
Qed.

(** ** The trigger *)

(** C1, as the code has it.  When the starting flag or the stopping flag is
    set, or the render the handler belongs to has [isProcessing] set,
    [triggerCapture] returns at once and leaves the world, trace and timers
    included, as it was. *)
Theorem trigger_rejected_while_busy (cl : Closure) (w : World) :
  guardBusy cl w = true -> triggerCapture cl w = (Ok tt, w).
Proof.
  unfold guardBusy, triggerCapture. intros H. handler. by rewrite H.
Qed.

Lemma trigger_rejected_while_busy_witness :
  guardBusy (current (cells videoStarting)) videoStarting = true /\
  triggerCapture (current (cells videoStarting)) videoStarting = (Ok tt, videoStarting).
Proof.
  split; [reflexivity |]. apply trigger_rejected_while_busy. reflexivity.
Defined.

(** The same at the level of the event loop. *)
Lemma trigger_event_rejected_while_busy w :
  guardBusy (current (cells w)) w = true -> step w Trigger = w.
Proof.
  unfold guardBusy, step, handle, triggerCapture. intros H. handler. by rewrite H.
Qed.

(** C1, counterexample.  A photo capture is in flight (its encoding is
    pending), yet a second press of the shutter is not rejected: it draws a
    second frame and suspends a second capture. *)
Lemma trigger_accepted_during_photo :
  photoInFlight photoPending = true /\
  guardBusy (current (cells photoPending)) photoPending = false /\
  exec (triggerCapture (current (cells photoPending))) photoPending <> photoPending /\
  length (photoTasks (plat photoPending)) = 1%nat /\
  length (photoTasks (plat (step photoPending Trigger))) = 2%nat.
Proof.
  repeat split; try reflexivity.
  intros H. apply (f_equal (fun w => length (photoTasks (plat w)))) in H.
  vm_compute in H. discriminate.
Qed.

(** ** Recording: the guard of the start *)

(** C4, as the code has it.  [startVideoRecording] returns [false] at once,
    and changes nothing, when no stream is held, when the render it belongs
    to is recording, or when the starting flag is set. *)
Theorem start_rejected_by_guard (cl : Closure) (w : World) :
  streamRef (refs w) = None \/ isRecording cl = true \/ isStartingRef (refs w) = true ->
  startVideoRecording cl w = (Ok (Returned (Bool false)), w).
Proof.
  unfold startVideoRecording. handler.
  intros [-> | [-> | ->]]; [done | |]; destruct (streamRef (refs w)); try done.
  by rewrite orb_true_r.
Qed.

Lemma start_rejected_by_guard_witness :
  startVideoRecording initialClosure (initialWorld quiet)
  = (Ok (Returned (Bool false)), initialWorld quiet).
Proof. apply start_rejected_by_guard. left. reflexivity. Defined.

(** C4, counterexample.  The held stream has no live track, and no recorder
    is attached; the start is not rejected: it raises the starting flag,
    empties the buffer, creates a recorder and attaches it. *)
Lemma start_accepted_without_live_track :
  let w := cameraLost in
  let w' := exec (startVideoRecording (current (cells w))) w in
  streamRef (refs w) = Some 1%nat /\ heldActive w = false /\ activeCount w = 0%nat /\
  mediaRecorderRef (refs w) = None /\
  isStartingRef (refs w') = true /\ recorders (plat w) = [] /\
  length (recorders (plat w')) = 1%nat /\ mediaRecorderRef (refs w') = Some 0%nat /\
  w' <> w.
Proof.
  cbv zeta. repeat split; try reflexivity.
  intros H. apply (f_equal (fun w => isStartingRef (refs w))) in H.
  vm_compute in H. discriminate.
Qed.

(** The other half of C4: a recorder is attached (its start ended in an
    error), the flags are clear; the start is not rejected either and
    attaches a second recorder. *)
Lemma start_accepted_with_recorder_attached :
  let w := startFailed in
  let w' := exec (startVideoRecording (current (cells w))) w in
  mediaRecorderRef (refs w) = Some 0%nat /\ guardBusy (current (cells w)) w = false /\
  mediaRecorderRef (refs w') = Some 1%nat /\ length (recorders (plat w')) = 2%nat.
Proof. cbv zeta. repeat split; reflexivity. Qed.

(** ** Zoom *)

Lemma set_log_same p : set_log (log p ++ []) p = p.
Proof. rewrite app_nil_r. by destruct p. Qed.

(** C8, as the code has it.  [handleZoomSelect] never throws, and the body
    of [applyZoom] never throws either, whatever track it is given and
    whatever the platform answers.  The factor is stored and handed to the
    platform as it is: when the first video track of the held stream
    advertises [zoom], exactly one [applyConstraints] with the very factor
    [z] is issued; otherwise nothing is issued.  Nothing else changes on the
    platform, and the refs are left alone. *)
Theorem zoom_applied_as_given (z : Q) (w : World) :
  let w' := exec (handleZoomSelect z) w in
  returns (handleZoomSelect z) w = true /\
  (forall track, returns (applyZoom z track) w = true) /\
  zoom (current (cells w')) = z /\
  refs w' = refs w /\
  plat w' =
    set_log
      (log (plat w) ++
       match zoomTarget w with
       | Some t =>
           [ApplyConstraints t (AdvZoom z) (negb (constraintsRejected (behaviour w)))]
       | None => []
       end)
      (plat w).
Proof.
  cbv zeta. unfold handleZoomSelect, applyZoom, zoomTarget.
  repeat split; try intros track; handler; cbn;
    repeat (split_case; cbn); rewrite ?set_log_same; reflexivity.
Qed.

(** C8, counterexample.  The video track supports zoom factors from 1 to 4;
    the zoom level 10 of the view is passed to the platform as 10, not
    clamped to 4. *)
Lemma zoom_not_clamped :
  let w := cameraReady in
  zoomTarget w = Some (0%nat, 0%nat) /\
  capZoom (capabilitiesOf (plat w) (0%nat, 0%nat)) = Some (1, 4) /\
  In 10 ZOOM_LEVELS /\ ~ 10 <= 4 /\
  log (plat (step w (ZoomSelect 10))) =
    log (plat w) ++ [ApplyConstraints (0%nat, 0%nat) (AdvZoom 10) true].
Proof.
  cbv zeta. split; [vm_compute; reflexivity |]. split; [vm_compute; reflexivity |].
  split; [cbn; tauto |]. split; [| vm_compute; reflexivity].
  intros H. vm_compute in H. by apply H.
Qed.

(** ** Recording: the chunk buffer *)

(** C10.  The start of a recording does empty the shared chunk buffer, but
    [ondataavailable] does not ask which recorder reports: the non-empty
    chunk of any recorder that exists goes into the buffer.  So the payload
    of a recording is not made of its own chunks alone.  In video mode, a
    first recording is stopped and its recorder is slow: the stop timeout
    saves the recording, made of [chunkA].  The next start empties the
    buffer and recorder 1 is the current one; recorder 0 then delivers
    [chunkB], recorder 1 delivers [chunkC], and the video saved for the
    second recording is made of [chunkB] and [chunkC]. *)
Theorem recording_payload_shared_buffer :
  (forall (w : World) (mr : nat) (data : Blob),
     recordedChunksRef (refs (step w (RecorderData mr data))) =
       recordedChunksRef (refs w) ++
       if bool_decide (mr < length (recorders (plat w)))%nat && (0 <? blobSize data)%nat
       then [data] else []) /\
  (let w1 := run slowStop videoReady in
   let w2 := step w1 Trigger in
   let w3 := run nextRecording w1 in
   storedBlobs w1 = [newBlob [chunkA] "video/webm"] /\
   mediaRecorderRef (refs w2) = Some 1%nat /\
   recordedChunksRef (refs w2) = [] /\
   storedBlobs w3 =
     [newBlob [chunkA] "video/webm"; newBlob [chunkB; chunkC] "video/webm"]).
Proof.
  split.
  - intros w mr data. unfold step, handle, withRecorder, ondataavailable. handler. cbn.
    destruct (recorders (plat w) !! mr) as [r |] eqn:Hr; cbn.
    + apply lookup_lt_Some in Hr. rewrite bool_decide_true by done. cbn.
      destruct (blobSize data); cbn; by rewrite ?app_nil_r.
    + apply lookup_ge_None in Hr. rewrite bool_decide_false by lia. cbn.
      by rewrite app_nil_r.
  - vm_compute. repeat split.
Qed.

(** ** Camera session: release and acquisition *)

Lemma world_eta w :
  w = mkWorld (refs w) (cells w) (plat w) (behaviour w).
Proof. by destruct w. Qed.

Lemma platform_eta p :
  p = mkPlatform (streams p) (recorders p) (db p) (clock p) (timers p) (promises p)
        (cameraTasks p) (photoTasks p) (log p).
Proof. by destruct p. Qed.

Lemma stopped_idemp t : stopped (stopped t) = stopped t.
Proof. done. Qed.

Lemma alter_alter {A} (f g : A -> A) i (l : list A) :
  alter f i (alter g i l) = alter (f ∘ g) i l.
Proof.
  apply list_eq. intros j. destruct (decide (i = j)) as [-> |].
  - rewrite !list_lookup_alter_eq. by destruct (l !! j).
  - by rewrite !list_lookup_alter_ne.
Qed.

Lemma stopAt_lookup js : forall ts k,
  stopAt js ts !! k = (if bool_decide (k ∈ js) then stopped else fun t => t) <$> ts !! k.
Proof.
  induction js as [| a js IH]; intros ts k.
  - cbn. by destruct (ts !! k).
  - change (stopAt (a :: js) ts) with (stopAt js (alter stopped a ts)).
    rewrite IH. destruct (decide (a = k)) as [-> |].
    + rewrite list_lookup_alter_eq, (bool_decide_true (k ∈ k :: js)) by left.
      destruct (ts !! k); cbn; [| done]. by destruct (bool_decide (k ∈ js)).
    + rewrite list_lookup_alter_ne by done.
      rewrite (bool_decide_ext (k ∈ a :: js) (k ∈ js)); [done |].
      rewrite elem_of_cons. split; [intros [? | ?]; [congruence | done] | by right].
Qed.

Lemma stopAt_all ts : stopAt (seq 0 (length ts)) ts = stopped <$> ts.
Proof.
  apply list_eq. intros k. rewrite stopAt_lookup, list_lookup_fmap.
  destruct (ts !! k) as [t |] eqn:Hk; cbn; [| done].
  apply lookup_lt_Some in Hk.
  rewrite bool_decide_true; [done |]. apply elem_of_seq. lia.
Qed.

Lemma forEach_track_stop i js : forall w,
  forEach track_stop (pair i <$> js) w =
  (Ok tt,
   set_plat
     (set_log (log (plat w) ++ ((fun j => TrackStop (i, j)) <$> js))
        (set_streams
           (alter (fun s => mkStream (stopAt js (streamTracks s))) i (streams (plat w)))
           (plat w)))
     w).
Proof.
  induction js as [| j js IH]; intros w; cbn [fmap list_fmap forEach].
  - rewrite app_nil_r, list_alter_id by (by intros []).
    unfold mret, M_ret. f_equal.
    rewrite (world_eta w) at 1. unfold set_plat. f_equal.
    rewrite (platform_eta (plat w)) at 1. done.
  - unfold track_stop. handler. rewrite IH. cbn.
    rewrite alter_alter, <- app_assoc. done.
Qed.

Lemma plat_unchanged w :
  set_plat (set_log (log (plat w)) (set_streams (streams (plat w)) (plat w))) w = w.
Proof. by destruct w as [r c [] b]. Qed.

Lemma releaseStream_released w : releaseStream w = (Ok tt, released w).
Proof.
  unfold releaseStream, released, releaseTrace, getTracks. handler.
  destruct (streamRef (refs w)) as [i |]; [| done].
  destruct (streams (plat w) !! i) as [s |] eqn:Hs.
  - rewrite imap_seq_0, (forEach_track_stop i). do 4 f_equal.
    apply list_eq. intros k. destruct (decide (i = k)) as [<- |].
    + by rewrite !list_lookup_alter_eq, Hs; cbn; rewrite stopAt_all.
    + by rewrite !list_lookup_alter_ne.
  - cbn. rewrite app_nil_r. f_equal.
    replace (alter _ i (streams (plat w))) with (streams (plat w));
      [by rewrite plat_unchanged |].
    apply list_eq. intros k. destruct (decide (i = k)) as [<- |].
    + by rewrite list_lookup_alter_eq, Hs.
    + by rewrite list_lookup_alter_ne.
Qed.

(** Projections of the released world. *)
Lemma released_refs w : refs (released w) = refs w.
Proof. unfold released. by destruct (streamRef (refs w)). Qed.

Lemma released_behaviour w : behaviour (released w) = behaviour w.
Proof. unfold released. by destruct (streamRef (refs w)). Qed.

Lemma released_log w : log (plat (released w)) = log (plat w) ++ releaseTrace w.
Proof.
  unfold released, releaseTrace.
  destruct (streamRef (refs w)); cbn; by rewrite ?app_nil_r.
Qed.

Lemma released_length w :
  length (streams (plat (released w))) = length (streams (plat w)).
Proof.
  unfold released. destruct (streamRef (refs w)); cbn; by rewrite ?length_alter.
Qed.

Lemma activeStream_stopped s : activeStream (mkStream (stopped <$> streamTracks s)) = false.
Proof.
  unfold activeStream. cbn. induction (streamTracks s) as [| t ts IH]; [done |]. exact IH.
Qed.

Lemma insert_snoc {A} (l : list A) (x y : A) : <[length l := y]> (l ++ [x]) = l ++ [y].
Proof. by rewrite <- (Nat.add_0_r (length l)), insert_app_r. Qed.

(** The call up to its suspension. *)
Lemma startCamera_begin_spec cl w :
  let v := released w in
  startCamera_begin cl w =
  (Ok (length (cameraTasks (plat v))),
   set_plat
     (set_cameraTasks (cameraTasks (plat v) ++ [Some (AwaitStream cl false)])
        (set_log (log (plat v) ++ [GetUserMedia (streamConstraints cl false)]) (plat v)))
     v).
Proof.
  cbv zeta. unfold startCamera_begin, awaitUserMedia. handler.
  by rewrite releaseStream_released.
Qed.

(** Settling a slot that is not pending does nothing. *)
Lemma startCamera_settle_done k u :
  cameraTasks (plat u) !! k = Some None -> startCamera_settle k u = (Ok tt, u).
Proof. intros H. unfold startCamera_settle. handler. by rewrite H. Qed.

(** Settling a pending request. *)
Lemma startCamera_settle_spec k cl relaxed u :
  cameraTasks (plat u) !! k = Some (Some (AwaitStream cl relaxed)) ->
  let u' := exec (startCamera_settle k) u in
  startCamera_settle k u = (Ok tt, u') /\ behaviour u' = behaviour u /\
  match userMedia (behaviour u) (streamConstraints cl relaxed) with
  | Some d =>
      (exists s rest,
         activeStream s = true /\ streams (plat u') = streams (plat u) ++ [s] /\
         streamRef (refs u') = Some (length (streams (plat u))) /\
         log (plat u') = log (plat u) ++ rest /\ noStops rest = true) /\
      cameraTasks (plat u') !! k = Some None
  | None =>
      streams (plat u') = streams (plat u) /\ streamRef (refs u') = streamRef (refs u) /\
      if relaxed
      then log (plat u') = log (plat u) /\ cameraTasks (plat u') !! k = Some None
      else log (plat u') = log (plat u) ++ [GetUserMedia (streamConstraints cl true)] /\
           cameraTasks (plat u') !! k = Some (Some (AwaitStream cl true))
  end.
Proof.
  intros Hk. cbv zeta. pose proof (lookup_lt_Some _ _ _ Hk) as Hlt.
  assert (forall x y, <[k:=y]> (<[k:=x]> (cameraTasks (plat u))) !! k = Some y) as Hins2.
  { intros. apply list_lookup_insert_eq. by rewrite length_insert. }
  assert (forall y, <[k:=y]> (cameraTasks (plat u)) !! k = Some y) as Hins
    by (intros; by apply list_lookup_insert_eq).
  unfold startCamera_settle, startCamera_granted, awaitUserMedia, grantStream,
    cameraFailed, attachStream, applyTorch, applyZoom.
  handler. rewrite Hk. cbn.
  destruct (userMedia (behaviour u) (streamConstraints cl relaxed)) as [d |]; cbn.
  - repeat (split_case; cbn);
      (split; [reflexivity |]); (split; [reflexivity |]); (split; [| apply Hins]);
      eexists _, _; rewrite <- ?app_assoc; cbn;
      refine (conj _ (conj eq_refl (conj eq_refl (conj _ _)))); reflexivity.
  - destruct relaxed; cbn; rewrite ?Hins, ?Hins2; done.
Qed.

Lemma startCamera_settle_returns k u : (startCamera_settle k u).1 = Ok tt.
Proof.
  destruct (cameraTasks (plat u) !! k) as [[[cl relaxed | cl] |] |] eqn:Hk.
  - by destruct (startCamera_settle_spec k cl relaxed u Hk) as (-> & _).
  - unfold startCamera_settle. handler. by rewrite Hk.
  - by rewrite startCamera_settle_done.
  - unfold startCamera_settle. handler. by rewrite Hk.
Qed.

(** Unfolds every handler of the component. *)
Ltac unfold_handlers :=
  cbv beta iota zeta delta
    [step handle runTimer triggerCapture countdownTick dispatch
     startVideoRecording stopVideoRecording takePhoto drawPhoto onEncoded
     handleStop stopTimeout startTimeout onstopHandler onstart onerror
     ondataavailable handleZoomSelect applyZoom toggleFlash mimeTypes selectMime];
  handler; cbn.

(** Nothing but [startCamera] touches the streams or [streamRef]. *)
Lemma step_keeps_session w e :
  cameraEvent e = false ->
  streams (plat (step w e)) = streams (plat w) /\
  streamRef (refs (step w e)) = streamRef (refs w) /\
  behaviour (step w e) = behaviour w.
Proof.
  intros He. destruct e; try done; clear He.
  all: unfold_handlers; repeat (split_case; cbn); done.
Qed.

(** Two calls one after the other, as the event loop runs them: the
    tracks of the first stream are stopped before the second request. *)
Example camera_calls_in_succession :
  let w2 := run [CameraEffect; StreamSettled 0; CameraEffect; StreamSettled 1]
              (initialWorld quiet) in
  activeStream <$> streams (plat w2) = [false; true] /\
  streamRef (refs w2) = Some 1%nat /\ activeCount w2 = 1%nat.
Proof. repeat split; vm_compute; reflexivity. Qed.

(** C5.  [startCamera] and the cleanup of the effect stop the tracks of the
    stream held in [streamRef], and of no other, and a call holds its stream
    only once it is granted.  So calls that overlap leave more than one
    active stream.  From mount: the mode changes while the request of the
    mount is pending and the effect runs again; it finds no stream to
    release and no track is stopped; both requests are granted and two
    streams are active, of which the second is held.  The first is out of
    reach from then on: after a later switch of camera, a call in succession
    that releases the held stream and is granted a third, two streams are
    still active. *)
Theorem camera_streams_overlap :
  let w := run overlappingStarts (initialWorld quiet) in
  let w' := run laterSwitch w in
  noStops (log (plat w)) = true /\
  activeStream <$> streams (plat w) = [true; true] /\
  streamRef (refs w) = Some 1%nat /\ activeCount w = 2%nat /\
  activeStream <$> streams (plat w') = [true; false; true] /\
  streamRef (refs w') = Some 2%nat /\ activeCount w' = 2%nat.
Proof. vm_compute. repeat split. Qed.

(** ** Recording: the start timeout *)

(** X7.  The start timeout of an attempt that is still starting, where
    stopping the recorder does not throw: both flags are cleared, the
    recorder is stopped if it is not inactive, the ref is emptied, the
    promise of the attempt settles to [false] and the toast reads
    "Recording failed to start". *)
Lemma startTimeout_own_attempt mr resolveId w :
  isStartingRef (refs w) = true ->
  promises (plat w) !! resolveId = Some None ->
  recorderStopThrows (behaviour w) = false ->
  let w' := exec (startTimeout mr resolveId) w in
  isStartingRef (refs w') = false /\ isProcessing (current (cells w')) = false /\
  mediaRecorderRef (refs w') = None /\
  promises (plat w') !! resolveId = Some (Some (Bool false)) /\
  default Inactive (recState <$> recorders (plat w') !! mr) = Inactive /\
  toastMessage (cells w') = Some "Recording failed to start".
Proof.
  intros Hs Hp Hthrow. cbv zeta. unfold startTimeout. handler.
  rewrite Hs. cbn.
  assert (<[resolveId:=Some (Bool false)]> (promises (plat w)) !! resolveId
          = Some (Some (Bool false))) as Hins
    by (apply list_lookup_insert_eq; by eapply lookup_lt_Some).
  repeat (split_case; cbn); try congruence;
    repeat match goal with |- _ /\ _ => split end; try done.
  - by apply bool_decide_eq_true in Heqb.
  - rewrite list_lookup_alter_eq. by destruct (recorders (plat w) !! mr).
Qed.

(** C2, the defect.  A recording is started, stopped and saved, and a second
    start is made 1.2 s after the first.  The second recorder never reports
    its start.  At 2.5 s the timeout armed by the first attempt finds the
    starting flag of the second attempt set and consumes it: it clears the
    flags and the ref, but leaves the second recorder running and the second
    promise pending.  At 3.7 s the timeout of the second attempt finds the
    flag clear and does nothing.  In the end no start timeout is armed, the
    promise of the second attempt is still pending and its recorder was
    never stopped. *)
Theorem start_timeout_consumed_by_earlier_attempt :
  let begun := run (take 10 restartWithinTimeout) videoReady in
  let final := run restartWithinTimeout videoReady in
  (* the second attempt is under way at 1.2 s *)
  clock (plat begun) = 1200%Z /\ isStartingRef (refs begun) = true /\
  mediaRecorderRef (refs begun) = Some 1%nat /\
  promises (plat begun) !! 2%nat = Some None /\
  timers (plat begun) !! 0%nat = Some (Some (mkTimer 2500 (StartTimeout 0 0))) /\
  timers (plat begun) !! 4%nat = Some (Some (mkTimer 3700 (StartTimeout 1 2))) /\
  (* both timeouts have fired, 2.5 s after the second attempt began *)
  clock (plat final) = 3700%Z /\ armedStartTimeouts final = [] /\
  isStartingRef (refs final) = false /\
  promises (plat final) !! 2%nat = Some None /\
  recState <$> recorders (plat final) !! 1%nat = Some Recording /\
  ~ In (RecorderStop 1) (log (plat final)) /\
  mediaRecorderRef (refs final) = None.
Proof.
  cbv zeta. repeat split; try reflexivity.
  vm_compute. intros H. repeat (destruct H as [H | H]; [discriminate |]). exact H.
Qed.

(** The same second attempt made once the first timeout is spent: its own
    timeout settles it. *)
Example start_timeout_when_alone :
  let final :=
    run [Trigger; Elapse 100; RecorderStarted 0; Elapse 400; RecorderData 0 chunkA;
         Trigger; Elapse 50; RecorderStopped 0; Elapse 1950; TimerFires 0;
         Trigger; Elapse 2500; TimerFires 4] videoReady in
  promises (plat final) !! 2%nat = Some (Some (Bool false)) /\
  recState <$> recorders (plat final) !! 1%nat = Some Inactive /\
  isStartingRef (refs final) = false.
Proof. repeat split; reflexivity. Qed.

(** ** Photo pipeline: from the frame to the canvas *)

(** [takePhoto] draws the source rectangle of the frame's native size under
    the aspect of its render, and sizes the canvas to it, in whole pixels. *)
Lemma drawPhoto_draws_sourceRect cl liveBlob w video canvas style :
  videoRef (refs w) = Some video ->
  canvasRef (refs w) = Some canvas ->
  canvasContext canvas = true ->
  STYLES !! styleIndex cl = Some style ->
  let rect := sourceRect (aspect cl) (num (videoWidth video)) (num (videoHeight video)) in
  let filter := filterString (styleFilter style) (nightMode cl) in
  let w' := exec (drawPhoto cl liveBlob) w in
  log (plat w') = log (plat w) ++ [DrawImage rect filter] /\
  canvasRef (refs w') =
    Some (mkCanvas true (reflected 300 (sWidth rect)) (reflected 150 (sHeight rect))
            filter) /\
  photoTasks (plat w') = photoTasks (plat w) ++ [Some (AwaitEncoding cl liveBlob)].
Proof.
  intros Hv Hc Hctx Hs. cbv zeta. unfold drawPhoto. handler.
  by rewrite Hv, Hc, Hctx, Hs.
Qed.


Local Close Scope Q_scope.

(** ** Media store: keys *)

Lemma storeWf_add r s : storeWf s -> storeWf (store_add r s).2.
Proof.
  intros [Hs Hb]. split; cbn.
  - induction Hs as [| a l Hs IH Ha]; cbn; [repeat constructor |].
    apply Forall_cons in Hb as [Hak Hb].
    constructor; [by apply IH |].
    apply Forall_app. split; [done |]. by repeat constructor.
  - apply Forall_app. split.
    + eapply Forall_impl; [exact Hb |]. intros; cbn in *. lia.
    + repeat constructor. cbn. lia.
Qed.

Lemma storeWf_NoDup s : storeWf s -> NoDup (id <$> entries s).
Proof.
  intros [Hs _]. induction Hs as [| a l Hs IH Ha]; cbn; [constructor |].
  constructor; [| done].
  intros Hin. apply list_elem_of_fmap in Hin as (b & Hab & Hb).
  rewrite Forall_forall in Ha. specialize (Ha b Hb). lia.
Qed.

Lemma addAll_cons r rs w : addAll (r :: rs) w = addAll rs (exec (dbAdd r) w).
Proof. done. Qed.

Lemma addAll_spec rs : forall w,
  storeAddFails (behaviour w) = false ->
  let k := keyGenerator (db (plat w)) in
  entries (db (plat (addAll rs w))) =
    entries (db (plat w)) ++ imap (fun j r => mkItem (k + Z.of_nat j) r) rs /\
  keyGenerator (db (plat (addAll rs w))) = (k + Z.of_nat (length rs))%Z /\
  behaviour (addAll rs w) = behaviour w.
Proof.
  induction rs as [| r rs IH]; intros w Hadd; cbv zeta.
  - cbn. by rewrite app_nil_r, Z.add_0_r.
  - rewrite addAll_cons. unfold exec. rewrite (dbAdd_ok r w Hadd). cbn [snd].
    set (w1 := set_plat _ w).
    destruct (IH w1 Hadd) as (He & Hk & Hb).
    rewrite He, Hk, Hb. cbn.
    rewrite <- app_assoc, Z.add_0_r. cbn.
    repeat split; [| lia].
    do 2 f_equal. apply imap_ext. intros j x _. cbn. f_equal. lia.
Qed.

(** X1.  Records added to the store one after the other, with no write
    failing, get the successive numbers of the key generator: [dbGetAll]
    then returns what it returned before followed by the new records in the
    order of their addition, no key occurs twice, and the keys still ascend
    below the key generator. *)
Theorem dbAdd_sequence_keys (rs : list MediaRecord) (w : World) :
  storeAddFails (behaviour w) = false ->
  storeGetAllFails (behaviour w) = false ->
  storeWf (db (plat w)) ->
  let k := keyGenerator (db (plat w)) in
  let w' := addAll rs w in
  dbGetAll w' =
    (Ok (store_getAll (db (plat w)) ++ imap (fun j r => mkItem (k + Z.of_nat j) r) rs), w') /\
  NoDup (id <$> entries (db (plat w'))) /\
  storeWf (db (plat w')).
Proof.
  intros Hadd Hget Hwf. cbv zeta.
  destruct (addAll_spec rs w Hadd) as (He & Hk & Hb).
  assert (storeWf (db (plat (addAll rs w)))) as Hwf'.
  { clear He Hk Hb Hget. revert w Hadd Hwf.
    induction rs as [| r rs IH]; intros w Hadd Hwf; [done |].
    rewrite addAll_cons. apply IH.
    - unfold exec. by rewrite (dbAdd_ok r w Hadd).
    - unfold exec. rewrite (dbAdd_ok r w Hadd). cbn. by apply storeWf_add. }
  split; [| split; [by apply storeWf_NoDup | done]].
  unfold dbGetAll. handler. rewrite Hb, Hget. unfold store_getAll. by rewrite He.
Qed.

Lemma dbAdd_sequence_keys_witness :
  let w' := addAll [sampleVideo chunkA; samplePhoto jpegA] (initialWorld quiet) in
  dbGetAll w' =
    (Ok [mkItem 1 (sampleVideo chunkA); mkItem 2 (samplePhoto jpegA)], w') /\
  NoDup (id <$> entries (db (plat w'))) /\
  storeWf (db (plat w')).
Proof.
  apply (dbAdd_sequence_keys [sampleVideo chunkA; samplePhoto jpegA] (initialWorld quiet)).
  - reflexivity.
  - reflexivity.
  - split; constructor.
Defined.

(** ** The event loop: what a task leaves alone *)

Ltac unfold_camera :=
  cbv beta iota zeta delta
    [step handle startCamera_settle startCamera_granted awaitUserMedia
     grantStream cameraFailed attachStream applyTorch applyZoom
     cameraEffect init init_settle init_checked];
  handler; cbn.

Ltac store_same :=
  split; [reflexivity |]; split; [reflexivity |];
  left; split; [reflexivity | first [left; reflexivity | right; reflexivity]].
Ltac store_added :=
  split; [reflexivity |]; split; [reflexivity |];
  right; eexists; split; [reflexivity | first [left; reflexivity | right; reflexivity]].

Lemma released_db w : db (plat (released w)) = db (plat w).
Proof. unfold released. by destruct (streamRef (refs w)). Qed.

Lemma released_cells w : cells (released w) = cells w.
Proof. unfold released. by destruct (streamRef (refs w)). Qed.

(** What one task of the event loop does to the store, to the gallery and
    to the settings. *)
Lemma step_frame w e :
  let w' := step w e in
  behaviour w' = behaviour w /\
  panelSettings (current (cells w')) = panelSettings (current (cells w)) /\
  (db (plat w') = db (plat w) /\
     (gallery (cells w') = gallery (cells w) \/
      gallery (cells w') = Array_sort byIdDescending (entries (db (plat w)))) \/
   exists r,
     db (plat w') = (store_add r (db (plat w))).2 /\
     (gallery (cells w') = gallery (cells w) \/
      gallery (cells w') = Array_sort byIdDescending (entries (db (plat w'))))).
Proof.
  cbv zeta. destruct e.
  2: { unfold_camera. rewrite releaseStream_released. cbn.
       rewrite released_behaviour.
       destruct (isNativePlatform _); cbn; rewrite ?startCamera_begin_spec; cbn;
         rewrite ?released_behaviour, ?released_db, ?released_cells;
         destruct (storeGetAllFails _); cbn;
         rewrite ?released_behaviour, ?released_db, ?released_cells; store_same. }
  2: { unfold_camera.
       destruct (cameraTasks (plat w) !! k) as [[[cl r | cl] |] |]; cbn; try store_same.
       destruct (checkPermissionsStatus _); cbn; [| store_same].
       rewrite startCamera_begin_spec; cbn.
       rewrite ?released_behaviour, ?released_db, ?released_cells. store_same. }
  2: { unfold_camera; repeat (split_case; cbn); store_same. }
  all: unfold_handlers; repeat (split_case; cbn); first [store_same | store_added].
Qed.

Lemma run_snoc es e w : run (es ++ [e]) w = step (run es w) e.
Proof. unfold run. by rewrite foldl_app. Qed.

(** X2.  Whatever happens to the component, the store only grows at its
    end: after any run of events, from any world, the store holds what it
    held before followed by at most one new entry per event, and the new
    entries carry the successive numbers of the key generator.  No handler
    deletes or rewrites an entry. *)
Theorem store_append_only (es : list Event) (w : World) :
  let s := db (plat w) in
  let s' := db (plat (run es w)) in
  exists l,
    entries s' = entries s ++ l /\
    (length l <= length es)%nat /\
    keyGenerator s' = (keyGenerator s + Z.of_nat (length l))%Z /\
    id <$> l = (fun j => (keyGenerator s + Z.of_nat j)%Z) <$> seq 0 (length l).
Proof.
  cbv zeta. induction es as [| e es IH] using rev_ind.
  - exists []. cbn. rewrite app_nil_r, Z.add_0_r. done.
  - rewrite run_snoc. destruct IH as (l & He & Hl & Hk & Hid).
    destruct (step_frame (run es w) e) as (_ & _ & [(Hdb & _) | (r & Hdb & _)]).
    + exists l. rewrite Hdb, length_app. cbn.
      repeat split; [done | lia | done | done].
    + exists (l ++ [mkItem (keyGenerator (db (plat (run es w)))) r]).
      rewrite Hdb, !length_app. cbn. rewrite He, Hk, <- app_assoc.
      repeat split; [lia | lia |].
      rewrite fmap_app, seq_app, fmap_app, Hid. cbn. done.
Qed.

Lemma galleryFromStore_step w e : galleryFromStore w -> galleryFromStore (step w e).
Proof.
  intros (l & Hl & Hg).
  destruct (step_frame w e) as (_ & _ & [(Hdb & [H | H]) | (r & Hdb & [H | H])]).
  - exists l. by rewrite Hdb, H.
  - exists (entries (db (plat w))). by rewrite Hdb, H.
  - exists l. rewrite Hdb, H. split; [| done]. cbn. by apply prefix_app_r.
  - by exists (entries (db (plat (step w e)))).
Qed.

(** X3.  The gallery never shows what is not stored.  Starting with an
    empty gallery, after any run of events the gallery is, sorted by id
    descending, a leading part of the store: the entries the store held at
    the last successful [loadGallery]. *)
Theorem gallery_shows_stored_items (es : list Event) (w : World) :
  gallery (cells w) = [] ->
  exists l,
    l `prefix_of` entries (db (plat (run es w))) /\
    gallery (cells (run es w)) = Array_sort byIdDescending l /\
    Permutation (gallery (cells (run es w))) l.
Proof.
  intros Hg.
  assert (galleryFromStore (run es w)) as (l & Hl & H).
  { induction es as [| e es IH] using rev_ind.
    - exists []. split; [apply prefix_nil | exact Hg].
    - rewrite run_snoc. by apply galleryFromStore_step. }
  exists l. repeat split; [done | done |]. rewrite H. apply Array_sort_perm.
Qed.

Lemma gallery_shows_stored_items_witness :
  exists l,
    l `prefix_of` entries (db (plat (run [Trigger; Encoded 0 (Some jpegA)] cameraReady))) /\
    gallery (cells (run [Trigger; Encoded 0 (Some jpegA)] cameraReady))
      = Array_sort byIdDescending l /\
    Permutation (gallery (cells (run [Trigger; Encoded 0 (Some jpegA)] cameraReady))) l.
Proof.
  apply (gallery_shows_stored_items [Trigger; Encoded 0 (Some jpegA)] cameraReady).
  reflexivity.
Defined.

(** X4.  The capture handlers leave the settings alone: after any run of
    events the live-photo switch, the timer, the style, the aspect, the
    night mode and the video resolution of the current render are those the
    run started with. *)
Theorem settings_left_to_the_panel (es : list Event) (w : World) :
  let cl := current (cells w) in
  let cl' := current (cells (run es w)) in
  liveEnabled cl' = liveEnabled cl /\ timer cl' = timer cl /\
  styleIndex cl' = styleIndex cl /\ aspect cl' = aspect cl /\
  nightMode cl' = nightMode cl /\ videoRes cl' = videoRes cl.
Proof.
  cbv zeta.
  assert (panelSettings (current (cells (run es w))) = panelSettings (current (cells w)))
    as H.
  { induction es as [| e es IH] using rev_ind; [done |].
    rewrite run_snoc. destruct (step_frame (run es w) e) as (_ & Hp & _). congruence. }
  unfold panelSettings in H. by injection H as -> -> -> -> -> ->.
Qed.

(** ** Recording: the start *)

Lemma selectMime_spec l w :
  hasMediaRecorder (behaviour w) = true ->
  selectMime l w = (Ok (default "" (firstSupported (behaviour w) l)), w).
Proof.
  intros Hmr. unfold firstSupported. induction l as [| m l IH]; [done |].
  cbn [selectMime]. handler. rewrite Hmr, filter_cons.
  destruct (decide (m ∈ supportedTypes (behaviour w))) as [Hm | Hm].
  - by rewrite bool_decide_true.
  - by rewrite bool_decide_false.
Qed.

Lemma selectMime_absent m l w :
  hasMediaRecorder (behaviour w) = false ->
  selectMime (m :: l) w = (Throw "ReferenceError", w).
Proof. intros Hmr. cbn [selectMime]. handler. by rewrite Hmr. Qed.

(** The loop stops at the first supported type. *)
Lemma selectMime_first_supported (l : list string) (w : World) :
  hasMediaRecorder (behaviour w) = true ->
  exists m, selectMime l w = (Ok m, w) /\
    ((m ∈ supportedTypes (behaviour w) /\
      exists l1 l2, l = l1 ++ m :: l2 /\
        Forall (fun x => x ∉ supportedTypes (behaviour w)) l1) \/
     (m = "" /\ Forall (fun x => x ∉ supportedTypes (behaviour w)) l)).
Proof.
  intros Hmr. eexists. split; [by apply selectMime_spec |].
  unfold firstSupported. induction l as [| x l IH]; [right; by cbn |].
  rewrite filter_cons. destruct (decide (x ∈ supportedTypes (behaviour w))) as [Hx | Hx]; cbn.
  - left. split; [done |]. by exists [], l.
  - destruct IH as [(Hm & l1 & l2 & Hl & Hl1) | (Hm & Hl)].
    + left. split; [done |]. exists (x :: l1), l2. split; [by rewrite Hl at 1 | by constructor].
    + right. split; [done |]. by constructor.
Qed.

Lemma mime_cases b :
  match firstSupported b mimeTypes with
  | Some mime =>
      String.eqb mime "" = false /\
      default "" (firstSupported b mimeTypes) = mime
  | None => bool_decide ("video/webm" ∈ supportedTypes b) = false
  end.
Proof.
  unfold firstSupported, mimeTypes. rewrite !filter_cons, filter_nil.
  repeat (case_decide; cbn; try done).
Qed.

(** Projections and field updates of worlds, computed. *)
Ltac world :=
  lazy beta iota zeta delta
    [refs cells plat behaviour set_refs set_cells set_plat
     videoRef canvasRef streamRef mediaRecorderRef recordedChunksRef isStartingRef
     isStoppingRef set_videoRef set_canvasRef set_streamRef set_mediaRecorderRef
     set_recordedChunksRef set_isStartingRef set_isStoppingRef
     current hasPermission countdown gallery showFlashOverlay toastMessage
     set_current set_hasPermission set_countdown set_gallery set_showFlashOverlay
     set_toastMessage
     streams recorders db clock timers promises cameraTasks photoTasks log
     set_streams set_recorders set_db set_clock set_timers set_promises
     set_cameraTasks set_photoTasks set_log due task
     recStream recMime recState recResolve onstop set_recState set_onstop
     stopTimeoutId stopClosure stopPromise].

Lemma lookup_snoc {A} (l : list A) (x : A) : (l ++ [x]) !! length l = Some x.
Proof. by apply list_lookup_middle. Qed.

Lemma lookup_snoc_snoc {A} (l : list A) (x y : A) :
  ((l ++ [x]) ++ [y]) !! length l = Some x.
Proof. rewrite <- app_assoc. by apply list_lookup_middle. Qed.

Lemma alter_snoc {A} (f : A -> A) (l : list A) (x : A) :
  alter f (length l) (l ++ [x]) = l ++ [f x].
Proof. by rewrite <- (Nat.add_0_r (length l)), alter_app_r. Qed.

Ltac snoc :=
  repeat first
    [rewrite lookup_snoc | rewrite lookup_snoc_snoc | rewrite insert_snoc | rewrite alter_snoc].

(** X5.  The outcomes of a start that passes the guard.  The call always
    returns, with the promise of the attempt.  Without [MediaRecorder] the
    first use of it throws: the attempt is abandoned with "Unable to start
    recording", and no recorder is made.  With no supported type, not even
    "video/webm", it is abandoned with "MediaRecorder not supported" and the
    chunk buffer is left as it was.  Otherwise the buffer is emptied and the
    recorder is created with the first supported type of [mimeTypes]; if the
    constructor throws the attempt is abandoned; if not, the recorder is
    attached and the timeout of 2500 ms is armed, and then either [start]
    throws and the attempt is abandoned with the timeout left armed, or the
    recorder is recording and the attempt stays pending, with both flags
    raised.  An abandoned attempt has cleared both flags and settled its
    promise to [false]. *)
Theorem recording_start_outcome (cl : Closure) (w : World) (stream : nat) :
  streamRef (refs w) = Some stream ->
  isRecording cl = false ->
  isStartingRef (refs w) = false ->
  let b := behaviour w in
  let p := length (promises (plat w)) in
  let mr := length (recorders (plat w)) in
  let w' := exec (startVideoRecording cl) w in
  startVideoRecording cl w = (Ok (Awaiting p), w') /\
  if negb (hasMediaRecorder b) then
    startAbandoned p "Unable to start recording" w' /\
    recorders (plat w') = recorders (plat w) /\
    recordedChunksRef (refs w') = recordedChunksRef (refs w)
  else
  match firstSupported b mimeTypes with
  | None =>
      startAbandoned p "MediaRecorder not supported" w' /\
      recorders (plat w') = recorders (plat w) /\
      recordedChunksRef (refs w') = recordedChunksRef (refs w)
  | Some mime =>
      recordedChunksRef (refs w') = [] /\
      if recorderCtorThrows b then
        startAbandoned p "Unable to start recording" w' /\
        recorders (plat w') = recorders (plat w) /\
        mediaRecorderRef (refs w') = mediaRecorderRef (refs w)
      else
        mediaRecorderRef (refs w') = Some mr /\
        timers (plat w') !! length (timers (plat w)) =
          Some (Some (mkTimer (clock (plat w) + 2500) (StartTimeout mr p))) /\
        if recorderStartThrows b then
          startAbandoned p "Unable to start recording" w' /\
          recorders (plat w') =
            recorders (plat w) ++ [mkRecorder stream (Some mime) Inactive p None]
        else
          isStartingRef (refs w') = true /\
          isProcessing (current (cells w')) = true /\
          promises (plat w') !! p = Some None /\
          recorders (plat w') =
            recorders (plat w) ++ [mkRecorder stream (Some mime) Recording p None]
  end.
Proof.
  intros Hs Hr Hg. cbv zeta.
  destruct w as [r c p [cap um st hmr ctor start stop rej addf getf]]. cbn in Hs, Hg.
  pose proof (mime_cases (mkBehaviour cap um st hmr ctor start stop rej addf getf)) as Hm.
  unfold startVideoRecording. handler. cbn -[selectMime mimeTypes firstSupported].
  rewrite Hs, Hr, Hg. cbn -[selectMime mimeTypes firstSupported].
  destruct hmr; cbn -[selectMime mimeTypes firstSupported].
  2: { unfold mimeTypes. rewrite selectMime_absent by done. cbn.
       unfold startAbandoned; cbn; snoc. repeat split. }
  rewrite selectMime_spec by done.
  cbn -[selectMime mimeTypes firstSupported].
  destruct (firstSupported _ mimeTypes) as [mime |] eqn:Hf; cbn -[String.eqb].
  - destruct Hm as (Hne & _). rewrite Hne. cbn.
    destruct ctor, start; cbn; unfold startAbandoned; cbn; snoc; cbn;
      repeat match goal with |- _ /\ _ => split end; try reflexivity.
  - cbn in Hm. rewrite Hm. cbn. unfold startAbandoned; cbn; snoc. repeat split.
Qed.

Lemma recording_start_outcome_witness :
  let w := videoReady in
  let p := length (promises (plat w)) in
  let mr := length (recorders (plat w)) in
  let w' := exec (startVideoRecording (current (cells w))) w in
  startVideoRecording (current (cells w)) w = (Ok (Awaiting p), w') /\
  recordedChunksRef (refs w') = [] /\
  mediaRecorderRef (refs w') = Some mr /\
  timers (plat w') !! length (timers (plat w)) =
    Some (Some (mkTimer (clock (plat w) + 2500) (StartTimeout mr p))) /\
  isStartingRef (refs w') = true /\
  isProcessing (current (cells w')) = true /\
  promises (plat w') !! p = Some None /\
  recorders (plat w') =
    recorders (plat w) ++ [mkRecorder 1 (Some "video/webm;codecs=vp9") Recording p None].
Proof.
  exact (recording_start_outcome (current (cells videoReady)) videoReady 1
           eq_refl eq_refl eq_refl).
Defined.



(** ** Recording: the stop *)

Lemma settle_lookup k v ps :
  settle k v ps !! k =
  match ps !! k with
  | Some None => Some (Some v)
  | x => x
  end.
Proof.
  unfold settle. destruct (ps !! k) as [[s |] |] eqn:E; try done.
  apply list_lookup_insert_eq. by eapply lookup_lt_Some.
Qed.

(** What [handleStop] leaves behind, but for the store and the gallery. *)
Lemma handleStop_frame cl p u :
  let u' := exec (handleStop cl p) u in
  returns (handleStop cl p) u = true /\
  refs u' = set_isStoppingRef false (set_mediaRecorderRef None (refs u)) /\
  current (cells u') =
    set_isProcessing false (set_isRecording false (current (cells u))) /\
  (exists msg, toastMessage (cells u') = Some msg /\ msg ∈ stopToasts) /\
  timers (plat u') = timers (plat u) ++ [Some (mkTimer (clock (plat u) + 3000) ToastClear)] /\
  promises (plat u') = settle p Void (promises (plat u)) /\
  recorders (plat u') = recorders (plat u) /\
  streams (plat u') = streams (plat u) /\
  clock (plat u') = clock (plat u) /\
  behaviour u' = behaviour u.
Proof.
  cbv zeta. unfold handleStop, settle, stopToasts. handler.
  repeat (split_case; cbn -[Z.add]);
    repeat match goal with |- _ /\ _ => split end; try reflexivity;
    eexists; (split; [reflexivity |]); repeat constructor.
Qed.

(** X8.  [handleStop] never throws and always releases the recording
    state, whether the blob was saved, was empty or the write failed: the
    recorder ref is emptied, the stopping flag, the recording state and the
    processing state are cleared, a pending promise is resolved, and one of
    the three toasts is shown.  It does not empty the chunk buffer. *)
Theorem finalization_always_completes (cl : Closure) (p : nat) (w : World) :
  let w' := exec (handleStop cl p) w in
  returns (handleStop cl p) w = true /\
  mediaRecorderRef (refs w') = None /\
  isStoppingRef (refs w') = false /\
  isRecording (current (cells w')) = false /\
  isProcessing (current (cells w')) = false /\
  promises (plat w') !! p =
    match promises (plat w) !! p with
    | Some None => Some (Some Void)
    | settled => settled
    end /\
  recordedChunksRef (refs w') = recordedChunksRef (refs w) /\
  exists msg, toastMessage (cells w') = Some msg /\ msg ∈ stopToasts.
Proof.
  cbv zeta.
  destruct (handleStop_frame cl p w) as (Hret & Hrefs & Hcur & Htoast & _ & Hp & _).
  rewrite Hrefs, Hcur, Hp.
  repeat match goal with |- _ /\ _ => split end; try done.
  apply settle_lookup.
Qed.

(** What [stopVideoRecording] leaves behind when the attached recorder is
    active and its [stop] does not throw. *)
Lemma stopVideoRecording_pending cl w mr r :
  isStoppingRef (refs w) = false ->
  mediaRecorderRef (refs w) = Some mr ->
  recorders (plat w) !! mr = Some r ->
  recState r <> Inactive ->
  recorderStopThrows (behaviour w) = false ->
  let tid := length (timers (plat w)) in
  let p := length (promises (plat w)) in
  let w1 := exec (stopVideoRecording cl) w in
  stopVideoRecording cl w = (Ok (Awaiting p), w1) /\
  refs w1 = set_isStoppingRef true (refs w) /\
  cells w1 = set_current (set_isProcessing true (current (cells w))) (cells w) /\
  timers (plat w1) =
    timers (plat w) ++ [Some (mkTimer (clock (plat w) + 4000) (StopTimeout mr cl p))] /\
  promises (plat w1) = promises (plat w) ++ [None] /\
  recorders (plat w1) =
    <[mr := mkRecorder (recStream r) (recMime r) Inactive (recResolve r)
              (Some (mkStopHandler tid cl p))]> (recorders (plat w)) /\
  log (plat w1) = log (plat w) ++ [RecorderStop mr] /\
  db (plat w1) = db (plat w) /\ clock (plat w1) = clock (plat w) /\
  streams (plat w1) = streams (plat w) /\ behaviour w1 = behaviour w.
Proof.
  intros Hg Hmr Hr Hst Ht. cbv zeta.
  pose proof (lookup_lt_Some _ _ _ Hr) as Hlt.
  unfold stopVideoRecording. handler. rewrite Hg, Hmr. cbn -[Z.add].
  rewrite Hr. cbn -[Z.add]. rewrite bool_decide_false by done. cbn -[Z.add].
  rewrite list_lookup_alter_eq, Hr. cbn -[Z.add].
  rewrite bool_decide_false by done. cbn -[Z.add]. rewrite Ht. cbn -[Z.add].
  repeat match goal with |- _ /\ _ => split end; try reflexivity.
  rewrite alter_alter. apply list_eq. intros j. destruct (decide (mr = j)) as [<- |].
  - by rewrite list_lookup_alter_eq, list_lookup_insert_eq, Hr.
  - by rewrite list_lookup_alter_ne, list_lookup_insert_ne.
Qed.

Lemma detached_handleStop cl p u :
  exec (detached (handleStop cl p)) u = exec (handleStop cl p) u.
Proof.
  destruct (handleStop_frame cl p u) as (Hret & _).
  unfold exec, returns, detached, tryCatch in *. unfold mbind, M_bind, mret, M_ret.
  by destruct (handleStop cl p u) as [[[] |] ?].
Qed.


(** A recorder without [onstop] reports its stop to nobody. *)
Lemma onstop_unset u mr r :
  recorders (plat u) !! mr = Some r -> onstop r = None -> step u (RecorderStopped mr) = u.
Proof. intros H Ho. unfold step, handle. handler. by rewrite H, Ho. Qed.


Lemma stopTimeout_step u k mr cl p d :
  timers (plat u) !! k = Some (Some (mkTimer d (StopTimeout mr cl p))) ->
  (d <= clock (plat u))%Z ->
  step u (TimerFires k) =
  exec (handleStop cl p)
    (exec (modRecorder mr (set_onstop None)) (exec (clearTimeout k) u)).
Proof.
  intros H Hd. apply Z.leb_le in Hd. rewrite <- detached_handleStop.
  unfold step, handle, runTimer, stopTimeout. unfold exec at 1.
  unfold mbind at 1, M_bind, gets. rewrite H. cbn [due task]. rewrite Hd.
  unfold exec, clearTimeout, modRecorder, modPlat, modify, mbind, M_bind. done.
Qed.



(** X10.  When the recorder does not report its stop within 4000 ms, the
    stop timeout finalizes in its place, with the same outcome, and detaches
    [onstop]: a stop event that comes later changes nothing. *)
Theorem stop_finalized_by_timeout
    (cl : Closure) (w : World) (mr : nat) (r : Recorder) (ms : Z) :
  isStoppingRef (refs w) = false ->
  mediaRecorderRef (refs w) = Some mr ->
  recorders (plat w) !! mr = Some r ->
  recState r <> Inactive ->
  recorderStopThrows (behaviour w) = false ->
  (4000 <= ms)%Z ->
  let tid := length (timers (plat w)) in
  let p := length (promises (plat w)) in
  let w1 := exec (stopVideoRecording cl) w in
  let w2 := run [Elapse ms; TimerFires tid] w1 in
  (isStoppingRef (refs w2) = false /\
   isRecording (current (cells w2)) = false /\
   isProcessing (current (cells w2)) = false /\
   mediaRecorderRef (refs w2) = None /\
   promises (plat w2) !! p = Some (Some Void) /\
   entries (db (plat w2)) =
     entries (db (plat w)) ++
     savedVideo cl (recordedChunksRef (refs w)) (clock (plat w) + ms) (db (plat w))
       (storeAddFails (behaviour w)) /\
   onstop <$> recorders (plat w2) !! mr = Some None) /\
  step w2 (RecorderStopped mr) = w2.
Proof.
  intros Hg Hmr Hr Hst Ht Hms. cbv zeta.
  destruct (stopVideoRecording_pending cl w mr r Hg Hmr Hr Hst Ht)
    as (_ & Hrefs & Hcells & Htimers & Hproms & Hrecs & _ & Hdb & Hclock & _ & Hb).
  set (w1 := exec (stopVideoRecording cl) w) in *.
  pose proof (lookup_lt_Some _ _ _ Hr) as Hlt.
  set (r' := mkRecorder (recStream r) (recMime r) Inactive (recResolve r) None).
  assert (recorders (plat (run [Elapse ms; TimerFires (length (timers (plat w)))] w1))
            !! mr = Some r' /\
          isStoppingRef (refs (run [Elapse ms; TimerFires (length (timers (plat w)))] w1))
          = false /\
          isRecording (current (cells
            (run [Elapse ms; TimerFires (length (timers (plat w)))] w1))) = false /\
          isProcessing (current (cells
            (run [Elapse ms; TimerFires (length (timers (plat w)))] w1))) = false /\
          mediaRecorderRef (refs
            (run [Elapse ms; TimerFires (length (timers (plat w)))] w1)) = None /\
          promises (plat (run [Elapse ms; TimerFires (length (timers (plat w)))] w1))
            !! length (promises (plat w)) = Some (Some Void) /\
          entries (db (plat (run [Elapse ms; TimerFires (length (timers (plat w)))] w1))) =
            entries (db (plat w)) ++
            savedVideo cl (recordedChunksRef (refs w)) (clock (plat w) + ms) (db (plat w))
              (storeAddFails (behaviour w))) as H2.
  { unfold run. cbn [foldl].
    set (v := step w1 (Elapse ms)).
    assert (refs v = refs w1 /\ cells v = cells w1 /\ timers (plat v) = timers (plat w1) /\
            promises (plat v) = promises (plat w1) /\
            recorders (plat v) = recorders (plat w1) /\ db (plat v) = db (plat w1) /\
            clock (plat v) = (clock (plat w1) + Z.max 0 ms)%Z /\
            behaviour v = behaviour w1)
      as (Hvr & Hvc & Hvt & Hvp & Hvrec & Hvdb & Hvclock & Hvb) by done.
    clearbody v.
    erewrite stopTimeout_step;
      [| rewrite Hvt, Htimers; apply lookup_snoc | rewrite Hvclock, Hclock; lia].
    set (u := exec (modRecorder _ _) _).
    destruct (handleStop_frame cl (length (promises (plat w))) u)
      as (_ & Hrefs' & Hcur' & _ & _ & Hp' & Hrec' & _).
    rewrite handleStop_entries, Hrefs', Hcur', Hp', Hrec'. cbv zeta.
    subst u. unfold exec, clearTimeout, modRecorder. handler. cbn -[Z.add Z.max].
    rewrite Hvr, Hvp, Hvdb, Hvclock, Hvb, Hvrec, Hrefs, Hproms, Hdb, Hclock, Hb, Hrecs.
    rewrite Z.max_r by lia. cbn.
    repeat match goal with |- _ /\ _ => split end; try done.
    - rewrite list_lookup_alter_eq, list_lookup_insert_eq by done. done.
    - rewrite settle_lookup. by rewrite lookup_snoc. }
  destruct H2 as (Hrec2 & H2). split.
  - rewrite Hrec2. repeat match goal with |- _ /\ _ => split end; tauto.
  - by eapply onstop_unset.
Qed.

Lemma stop_finalized_by_timeout_witness :
  let w := recordingNow in
  let cl := current (cells w) in
  let w2 := run [Elapse 4000; TimerFires 2] (exec (stopVideoRecording cl) w) in
  (isStoppingRef (refs w2) = false /\
   isRecording (current (cells w2)) = false /\
   isProcessing (current (cells w2)) = false /\
   mediaRecorderRef (refs w2) = None /\
   promises (plat w2) !! 1%nat = Some (Some Void) /\
   entries (db (plat w2)) =
     [mkItem 1 (mkMedia TypeVideo (newBlob [chunkB] "video/webm") None 4800
                  (MetaVideo FacingEnvironment))] /\
   onstop <$> recorders (plat w2) !! 0%nat = Some None) /\
  step w2 (RecorderStopped 0) = w2.
Proof.
  exact (stop_finalized_by_timeout (current (cells recordingNow)) recordingNow 0
           (mkRecorder 1 (Some "video/webm;codecs=vp9") Recording 0 None) 4000
           eq_refl eq_refl eq_refl ltac:(discriminate) eq_refl ltac:(lia)).
Defined.



(** ** The trigger: the countdown *)

Lemma run_app es1 es2 w : run (es1 ++ es2) w = run es2 (run es1 w).
Proof. unfold run. by rewrite foldl_app. Qed.

Lemma countdownEvents_S k0 j :
  countdownEvents k0 (S j) = countdownEvents k0 j ++ [Elapse 1000; TimerFires (k0 + j)].
Proof.
  unfold countdownEvents. by rewrite seq_S, flat_map_app.
Qed.

Lemma countdown_begins cl w :
  guardBusy cl w = false -> isRecording cl = false -> (0 < timer cl)%nat ->
  exec (triggerCapture cl) w = counting cl (timer cl) 0 w.
Proof.
  unfold guardBusy. intros Hg Hr Hn. apply Nat.ltb_lt in Hn.
  unfold triggerCapture, counting. handler. rewrite Hg, Hn, Hr. cbn -[Z.add Z.mul].
  destruct w as [r c [sts recs store clk tms prs cts pts lg] b]. cbn -[Z.add Z.mul].
  world. rewrite Nat.sub_0_r, Z.add_0_r. reflexivity.
Qed.

Lemma timers_counting {A} (ts : list (option A)) j (t : option A) :
  (ts ++ replicate j None ++ [t]) !! (length ts + j)%nat = Some t.
Proof.
  rewrite lookup_app_r by lia.
  replace (length ts + j - length ts)%nat with (length (replicate j (@None A)) + 0)%nat
    by (rewrite length_replicate; lia).
  by rewrite lookup_app_r, length_replicate, Nat.add_0_r, Nat.sub_diag by (rewrite length_replicate; lia).
Qed.

Lemma insert_counting {A} (ts : list (option A)) j (t : option A) :
  <[(length ts + j)%nat := None]> (ts ++ replicate j None ++ [t])
  = ts ++ replicate (S j) None.
Proof.
  rewrite insert_app_r. f_equal.
  induction j as [| j IH]; [done |].
  change (None :: <[j:=None]> (replicate j None ++ [t]) = None :: replicate (S j) None).
  by rewrite IH.
Qed.

Lemma countdown_tick cl n j w :
  (S j < n)%nat ->
  run [Elapse 1000; TimerFires (length (timers (plat w)) + j)] (counting cl n j w)
  = counting cl n (S j) w.
Proof.
  intros Hj.
  assert ((0 <? n - j - 1)%nat = true) as Hpos by (apply Nat.ltb_lt; lia).
  assert ((clock (plat w) + 1000 * Z.of_nat (S j)
           <=? clock (plat w) + 1000 * Z.of_nat j + Z.max 0 1000)%Z = true) as Hdue
    by (apply Z.leb_le; lia).
  destruct w as [r c [sts recs store clk tms prs cts pts lg] b]. unfold counting. revert Hdue.
  cbv beta iota zeta delta [run foldl step handle runTimer countdownTick]. handler.
  world. intros Hdue. rewrite timers_counting. world. rewrite Hdue, Hpos. world.
  rewrite insert_counting.
  replace (n - j - 1)%nat with (n - S j)%nat by lia.
  replace (clk + 1000 * Z.of_nat j + Z.max 0 1000 + 1000)%Z
    with (clk + 1000 * Z.of_nat (S (S j)))%Z by lia.
  replace (clk + 1000 * Z.of_nat j + Z.max 0 1000)%Z
    with (clk + 1000 * Z.of_nat (S j))%Z by lia.
  by rewrite <- ?app_assoc.
Qed.

Lemma countdown_ends cl n j w :
  (0 < n)%nat -> S j = n ->
  isStartingRef (refs w) || isStoppingRef (refs w) = false ->
  run [Elapse 1000; TimerFires (length (timers (plat w)) + j)] (counting cl n j w)
  = exec (dispatch cl) (counted n w).
Proof.
  intros Hn Hj Hg.
  assert ((0 <? n - j - 1)%nat = false) as Hpos by (apply Nat.ltb_ge; lia).
  assert ((clock (plat w) + 1000 * Z.of_nat (S j)
           <=? clock (plat w) + 1000 * Z.of_nat j + Z.max 0 1000)%Z = true) as Hdue
    by (apply Z.leb_le; lia).
  destruct w as [r c [sts recs store clk tms prs cts pts lg] b]. unfold counting, counted. revert Hdue Hg.
  cbv beta iota zeta delta [run foldl step handle runTimer countdownTick]. handler.
  world. intros Hdue Hg. rewrite timers_counting. world. rewrite Hdue, Hpos. world.
  rewrite insert_counting, Hg. subst n.
  replace (clk + 1000 * Z.of_nat j + Z.max 0 1000)%Z
    with (clk + 1000 * Z.of_nat (S j))%Z by lia.
  by rewrite <- ?app_assoc.
Qed.

Lemma countdown_run cl w j :
  guardBusy cl w = false -> isRecording cl = false ->
  (j < timer cl)%nat ->
  run (countdownEvents (length (timers (plat w))) j) (exec (triggerCapture cl) w)
  = counting cl (timer cl) j w.
Proof.
  intros Hg Hr. induction j as [| j IH]; intros Hj.
  - by apply countdown_begins.
  - rewrite countdownEvents_S, run_app, IH by lia. by apply countdown_tick.
Qed.

(** X12.  With the timer set and no recording under way, a trigger that
    passes the guard counts down before it captures: for [n] seconds the
    countdown shows [n], [n - 1], ..., 1, one second each, and nothing is
    captured meanwhile (the refs, the trace, the recorders and the pending
    photos are untouched); after [n] seconds the countdown is cleared and
    the capture is dispatched with the closure of the trigger. *)
Theorem countdown_then_dispatch (cl : Closure) (w : World) :
  guardBusy cl w = false ->
  isRecording cl = false ->
  (0 < timer cl)%nat ->
  let n := timer cl in
  let k0 := length (timers (plat w)) in
  let w1 := exec (triggerCapture cl) w in
  (forall j, (j < n)%nat ->
     let wj := run (countdownEvents k0 j) w1 in
     countdown (cells wj) = Some (n - j)%nat /\
     clock (plat wj) = (clock (plat w) + 1000 * Z.of_nat j)%Z /\
     refs wj = refs w /\ log (plat wj) = log (plat w) /\
     recorders (plat wj) = recorders (plat w) /\
     photoTasks (plat wj) = photoTasks (plat w)) /\
  run (countdownEvents k0 n) w1 = exec (dispatch cl) (counted n w).
Proof.
  intros Hg Hr Hn. cbv zeta. split.
  - intros j Hj. by rewrite countdown_run.
  - destruct (timer cl) as [| j] eqn:Ht; [lia |].
    rewrite countdownEvents_S, run_app, <- Ht, countdown_run by (done || lia).
    apply countdown_ends; [lia | done |].
    unfold guardBusy in Hg. by destruct (isStartingRef _), (isStoppingRef _).
Qed.

(** ** Photo pipeline: the encoded photo *)

(** X13.  When the canvas is encoded, the photo is stored with the
    settings of the render that took it (style name, aspect, night mode),
    with the live clip if there is one and the time of the encoding, and the
    gallery is loaded again; when the write fails nothing is stored and the
    gallery is left as it was.  When the encoding yields no blob nothing is
    stored. *)
Theorem photo_stored_with_settings
    (w : World) (k : nat) (cl : Closure) (liveBlob : option Blob) (blob : Blob)
    (style : FilterStyle) :
  photoTasks (plat w) !! k = Some (Some (AwaitEncoding cl liveBlob)) ->
  STYLES !! styleIndex cl = Some style ->
  let w' := step w (Encoded k (Some blob)) in
  let w0 := step w (Encoded k None) in
  (entries (db (plat w')) =
     entries (db (plat w)) ++
     (if storeAddFails (behaviour w) then []
      else [mkItem (keyGenerator (db (plat w)))
              (photoRecord cl style blob liveBlob (clock (plat w)))]) /\
   gallery (cells w') =
     (if storeAddFails (behaviour w) || storeGetAllFails (behaviour w)
      then gallery (cells w)
      else Array_sort byIdDescending (entries (db (plat w')))) /\
   photoTasks (plat w') = <[k := None]> (photoTasks (plat w)) /\
   refs w' = refs w) /\
  (db (plat w0) = db (plat w) /\ cells w0 = cells w /\
   photoTasks (plat w0) = <[k := None]> (photoTasks (plat w))).
Proof.
  intros Hk Hs. cbv zeta. unfold photoRecord.
  unfold step, handle, onEncoded. handler. rewrite Hk. cbn. rewrite Hs. cbn.
  destruct (storeAddFails (behaviour w)); cbn; [by rewrite app_nil_r |].
  destruct (storeGetAllFails (behaviour w)); cbn; done.
Qed.

(** ** Camera session: release, requests and mount *)

(** X15.  The release at the head of [startCamera], which is also the
    cleanup of the main effect, never throws; it stops every track of the
    held stream, one [stop] per track in order, so that the held stream is
    no longer active; it leaves every other stream as it was, and leaves
    [streamRef] pointing to the stream it stopped. *)
Theorem release_stops_held_stream (w : World) :
  let w' := exec releaseStream w in
  returns releaseStream w = true /\
  heldActive w' = false /\
  log (plat w') = log (plat w) ++ releaseTrace w /\
  refs w' = refs w /\ cells w' = cells w /\
  length (streams (plat w')) = length (streams (plat w)) /\
  (forall i, streamRef (refs w) <> Some i ->
     streams (plat w') !! i = streams (plat w) !! i).
Proof.
  cbv zeta. unfold exec, returns. rewrite releaseStream_released. cbn [fst snd].
  split; [done |]. split.
  { unfold heldActive. rewrite released_refs. unfold released.
    destruct (streamRef (refs w)) as [i |] eqn:Hi; [| done]. cbn.
    rewrite list_lookup_alter_eq.
    destruct (streams (plat w) !! i) as [s |]; [| done]. cbn.
    apply activeStream_stopped. }
  split; [apply released_log |]. split; [apply released_refs |].
  split; [apply released_cells |]. split; [apply released_length |].
  intros i Hi. unfold released.
  destruct (streamRef (refs w)) as [k |]; [| done]. cbn.
  apply list_lookup_alter_ne. congruence.
Qed.

Lemma run_keeps_session es : forall w,
  sessionKept es = true ->
  streams (plat (run es w)) = streams (plat w) /\
  streamRef (refs (run es w)) = streamRef (refs w) /\
  behaviour (run es w) = behaviour w.
Proof.
  induction es as [| e es IH]; intros w Hes; [done |].
  cbn in Hes. apply andb_true_iff in Hes as [He Hes]. apply negb_true_iff in He.
  destruct (step_keeps_session w e He) as (Hs & Hr & Hb).
  destruct (IH (step w e) Hes) as (Hs' & Hr' & Hb').
  change (run (e :: es) w) with (run es (step w e)).
  by rewrite Hs', Hr', Hb', Hs, Hr, Hb.
Qed.

(** X16.  Nothing but the main effect and [startCamera] touches the
    streams: a run of any other events (the trigger, recorder and timer
    events, zoom, flash, the switches of mode and camera themselves) leaves
    every stream, every track and [streamRef] as they were. *)
Theorem streams_left_to_the_camera (es : list Event) (w : World) :
  sessionKept es = true ->
  let w' := run es w in
  streams (plat w') = streams (plat w) /\
  streamRef (refs w') = streamRef (refs w) /\
  activeCount w' = activeCount w /\ heldActive w' = heldActive w.
Proof.
  intros Hes. cbv zeta. destruct (run_keeps_session es w Hes) as (Hs & Hr & _).
  unfold activeCount, heldActive. by rewrite Hs, Hr.
Qed.

Lemma streams_left_to_the_camera_witness :
  let es := [Trigger; RecorderStarted 0; RecorderData 0 chunkA; ZoomSelect 2; ToggleFlash;
             Elapse 1000; Trigger; RecorderStopped 0; SelectMode ModePhoto] in
  let w' := run es videoReady in
  streams (plat w') = streams (plat videoReady) /\
  streamRef (refs w') = streamRef (refs videoReady) /\
  activeCount w' = activeCount videoReady /\ heldActive w' = heldActive videoReady.
Proof.
  exact (streams_left_to_the_camera
           [Trigger; RecorderStarted 0; RecorderData 0 chunkA; ZoomSelect 2; ToggleFlash;
            Elapse 1000; Trigger; RecorderStopped 0; SelectMode ModePhoto]
           videoReady eq_refl).
Defined.

(** X17.  The outcome of a pending request for the camera.  Granted, the
    new stream is held and active, with an audio track exactly in video
    mode, and the permission state is set to [true].  A rejection of the
    first request changes no state and sends the relaxed request; a
    rejection of the relaxed request sets the permission state to [false]
    and shows "Camera access failed".  In neither case is a stream
    stopped. *)
Theorem camera_request_outcome (k : nat) (cl : Closure) (relaxed : bool) (u : World) :
  cameraTasks (plat u) !! k = Some (Some (AwaitStream cl relaxed)) ->
  let u' := step u (StreamSettled k) in
  let n := length (streams (plat u)) in
  match userMedia (behaviour u) (streamConstraints cl relaxed) with
  | Some d =>
      streamRef (refs u') = Some n /\
      (exists s, streams (plat u') = streams (plat u) ++ [s] /\ activeStream s = true /\
                 length (streamTracks s) = (if wantsAudio cl then 2 else 1)%nat) /\
      hasPermission (cells u') = Some true /\
      toastMessage (cells u') = toastMessage (cells u) /\
      cameraTasks (plat u') !! k = Some None
  | None =>
      streams (plat u') = streams (plat u) /\ streamRef (refs u') = streamRef (refs u) /\
      if relaxed
      then hasPermission (cells u') = Some false /\
           toastMessage (cells u') = Some "Camera access failed" /\
           log (plat u') = log (plat u) /\
           cameraTasks (plat u') !! k = Some None
      else cells u' = cells u /\
           log (plat u') = log (plat u) ++ [GetUserMedia (streamConstraints cl true)] /\
           cameraTasks (plat u') !! k = Some (Some (AwaitStream cl true))
  end.
Proof.
  intros Hk. cbv zeta. pose proof (lookup_lt_Some _ _ _ Hk) as Hlt.
  assert (forall x y, <[k:=y]> (<[k:=x]> (cameraTasks (plat u))) !! k = Some y) as Hins2.
  { intros. apply list_lookup_insert_eq. by rewrite length_insert. }
  assert (forall y, <[k:=y]> (cameraTasks (plat u)) !! k = Some y) as Hins
    by (intros; by apply list_lookup_insert_eq).
  unfold step, handle, startCamera_settle, startCamera_granted, awaitUserMedia, grantStream,
    cameraFailed, attachStream, applyTorch, applyZoom.
  handler. rewrite Hk. cbn.
  destruct (userMedia (behaviour u) (streamConstraints cl relaxed)) as [d |]; cbn.
  - repeat (split_case; cbn);
      (split; [reflexivity |]); (split; [| split; [reflexivity | split; [reflexivity | apply Hins]]]);
      eexists; (split; [reflexivity |]); split; try reflexivity.
  - destruct relaxed; cbn; rewrite ?Hins, ?Hins2; done.
Qed.

(** X18.  At mount on a native platform no camera request is made before
    the permissions are checked.  When the check grants, [startCamera] sends
    its first request; when it does not, no request is sent and the
    permission state is set to [false].  The check grants on iOS, and on
    Android exactly when the camera is granted and the photos are granted or
    limited. *)
Theorem native_mount_waits_for_permissions (b : Behaviour) :
  isNativePlatform (capacitor b) = true ->
  let w1 := step (initialWorld b) CameraEffect in
  let w2 := step w1 (PermissionsChecked 0) in
  (log (plat w1) = [] /\ hasPermission (cells w1) = None /\
   cameraTasks (plat w1) = [Some (AwaitPermissions initialClosure)]) /\
  (if checkPermissionsStatus (capacitor b)
   then log (plat w2) = [GetUserMedia (streamConstraints initialClosure false)] /\
        hasPermission (cells w2) = None /\
        cameraTasks (plat w2) = [None; Some (AwaitStream initialClosure false)]
   else log (plat w2) = [] /\ hasPermission (cells w2) = Some false /\
        cameraTasks (plat w2) = [None]) /\
  (checkPermissionsStatus (capacitor b) = true <->
   getPlatform (capacitor b) = PlatformIos \/
   exists st, checkPermissions (capacitor b) = Some st /\ camera st = Granted /\
              (photos st = Granted \/ photos st = Limited)).
Proof.
  intros Hn. cbv zeta.
  destruct b as [[pf perms] um st hmr ctor start stop rej addf getf].
  unfold isNativePlatform in Hn. cbn in Hn.
  split; [| split].
  - destruct pf; try discriminate; destruct getf; done.
  - unfold checkPermissionsStatus. cbn.
    destruct pf; try discriminate.
    + destruct perms as [[c ph] |]; cbn; [| by destruct getf].
      destruct c, ph, getf; done.
    + by destruct getf.
  - unfold checkPermissionsStatus. cbn. destruct pf; try discriminate.
    + destruct perms as [[c ph] |]; cbn.
      * split.
        -- intros H. right. exists (mkPermissions c ph). cbn.
           destruct c, ph; try discriminate; auto.
        -- intros [H | (s & Hs & Hc & Hp)]; [discriminate |].
           injection Hs as <-. cbn in *. subst c. by destruct Hp as [-> | ->].
      * split; [discriminate |]. intros [H | (s & Hs & _)]; discriminate.
    + split; [by left | done].
Qed.

Lemma native_mount_waits_for_permissions_witness :
  let w1 := step (initialWorld photosDenied) CameraEffect in
  let w2 := step w1 (PermissionsChecked 0) in
  (log (plat w1) = [] /\ hasPermission (cells w1) = None /\
   cameraTasks (plat w1) = [Some (AwaitPermissions initialClosure)]) /\
  (log (plat w2) = [] /\ hasPermission (cells w2) = Some false /\
   cameraTasks (plat w2) = [None]) /\
  (checkPermissionsStatus (capacitor photosDenied) = true <->
   getPlatform (capacitor photosDenied) = PlatformIos \/
   exists st, checkPermissions (capacitor photosDenied) = Some st /\ camera st = Granted /\
              (photos st = Granted \/ photos st = Limited)).
Proof. exact (native_mount_waits_for_permissions photosDenied eq_refl). Defined.

Lemma camera_request_outcome_witness :
  let u := step (initialWorld quiet) CameraEffect in
  let u' := step u (StreamSettled 0) in
  streamRef (refs u') = Some 0%nat /\
  (exists s, streams (plat u') = streams (plat u) ++ [s] /\ activeStream s = true /\
             length (streamTracks s) = 1%nat) /\
  hasPermission (cells u') = Some true /\
  toastMessage (cells u') = toastMessage (cells u) /\
  cameraTasks (plat u') !! 0%nat = Some None.
Proof.
  exact (camera_request_outcome 0 initialClosure false
           (step (initialWorld quiet) CameraEffect) eq_refl).
Defined.

Lemma countdown_then_dispatch_witness :
  let w := cameraReady in
  let w1 := exec (triggerCapture timed) w in
  (forall j, (j < 3)%nat ->
     let wj := run (countdownEvents 0 j) w1 in
     countdown (cells wj) = Some (3 - j)%nat /\
     clock (plat wj) = (clock (plat w) + 1000 * Z.of_nat j)%Z /\
     refs wj = refs w /\ log (plat wj) = log (plat w) /\
     recorders (plat wj) = recorders (plat w) /\
     photoTasks (plat wj) = photoTasks (plat w)) /\
  run (countdownEvents 0 3) w1 = exec (dispatch timed) (counted 3 w).
Proof.
  exact (countdown_then_dispatch timed cameraReady eq_refl eq_refl ltac:(cbn; lia)).
Defined.

Lemma photo_stored_with_settings_witness :
  let w := photoPending in
  let w' := step w (Encoded 0 (Some jpegA)) in
  let w0 := step w (Encoded 0 None) in
  (entries (db (plat w')) =
     entries (db (plat w)) ++
     (if storeAddFails (behaviour w) then []
      else [mkItem (keyGenerator (db (plat w)))
              (photoRecord initialClosure (mkStyle "Normal" "none") jpegA None
                 (clock (plat w)))]) /\
   gallery (cells w') =
     (if storeAddFails (behaviour w) || storeGetAllFails (behaviour w)
      then gallery (cells w)
      else Array_sort byIdDescending (entries (db (plat w')))) /\
   photoTasks (plat w') = <[0%nat := None]> (photoTasks (plat w)) /\
   refs w' = refs w) /\
  (db (plat w0) = db (plat w) /\ cells w0 = cells w /\
   photoTasks (plat w0) = <[0%nat := None]> (photoTasks (plat w))).
Proof.
  exact (photo_stored_with_settings photoPending 0 initialClosure None jpegA
           (mkStyle "Normal" "none") eq_refl eq_refl).
Defined.

Lemma startTimeout_own_attempt_witness :
  let w := videoStarting in
  let w' := exec (startTimeout 0 0) w in
  isStartingRef (refs w') = false /\ isProcessing (current (cells w')) = false /\
  mediaRecorderRef (refs w') = None /\
  promises (plat w') !! 0%nat = Some (Some (Bool false)) /\
  default Inactive (recState <$> recorders (plat w') !! 0%nat) = Inactive /\
  toastMessage (cells w') = Some "Recording failed to start".
Proof.
  exact (startTimeout_own_attempt 0 0 videoStarting eq_refl eq_refl eq_refl).
Defined.

Local Open Scope Q_scope.

(** ** Photo pipeline: the canvas; zoom and flash *)

(** A number from 0 up to 2^31 assigned to a reflected [unsigned long]
    loses its fraction and nothing else. *)
Lemma reflected_floor d x :
  0 <= x -> x < 2147483648 ->
  reflected d x = Z.to_N (Qfloor x) /\
  num (reflected d x) <= x /\ x < num (reflected d x) + 1.
Proof.
  intros H0 H1.
  pose proof (Qfloor_le x) as Hf1. pose proof (Qlt_floor x) as Hf2.
  rewrite inject_Z_plus in Hf2. change (inject_Z 1) with 1 in Hf2.
  assert (0 <= Qfloor x < 2147483648)%Z as Hf.
  { split.
    - change 0%Z with (Qfloor 0). by apply Qfloor_resp_le.
    - rewrite Zlt_Qlt. change (inject_Z 2147483648) with 2147483648. lra. }
  assert (reflected d x = Z.to_N (Qfloor x)) as ->.
  { unfold reflected, toUnsignedLong. destruct x as [p q]. cbn [Qnum Qden] in *.
    assert (0 <= p)%Z as Hp by (unfold Qle in H0; cbn in H0; lia).
    rewrite Z.quot_div_nonneg by lia.
    change (p / Z.pos q)%Z with (Qfloor (p # q)).
    rewrite Z.mod_small by lia.
    destruct (N.leb_spec (Z.to_N (Qfloor (p # q))) 2147483647) as [| Hgt]; [done | lia]. }
  split; [done |]. unfold num. rewrite Z2N.id by lia. lra.
Qed.

(** No crop is larger than the frame. *)
Lemma sourceRect_within aspect W H :
  frameSize W -> frameSize H ->
  let r := sourceRect aspect W H in
  0 <= sWidth r /\ sWidth r <= W /\ 0 <= sHeight r /\ sHeight r <= H.
Proof.
  intros FW FH. cbv zeta.
  destruct (frameSize_bounds W FW) as [W0 W1]. destruct (frameSize_bounds H FH) as [H0 H1].
  destruct aspect.
  - cbn. lra.
  - pose proof (fmul_four_thirds H FH) as [TW1 TW2].
    pose proof (fmul_four_thirds W FW) as [TH1 TH2].
    pose proof (fmul_three_quarters W FW) as QW.
    pose proof (fmul_three_quarters H FH) as QH.
    cbv beta iota zeta delta [sourceRect]. rewrite four_thirds, three_quarters.
    set (tw := fmul H (6004799503160661 # 4503599627370496)) in *.
    set (th := fmul W (6004799503160661 # 4503599627370496)) in *.
    set (qh := fmul W (3 # 4)) in *. set (qw := fmul H (3 # 4)) in *.
    clearbody tw th qh qw. unfold eps in *.
    destruct (Qgtb W H) eqn:EWH; [apply Qgtb_true in EWH | apply Qgtb_false in EWH].
    + destruct (Qgtb W tw) eqn:Etw; [apply Qgtb_true in Etw | apply Qgtb_false in Etw];
        cbn [sx sy sWidth sHeight]; [lra |].
      assert (3 * W <= 4 * H) by (apply frameSize_step; [done .. | lra]). lra.
    + destruct (Qgtb H th) eqn:Eth; [apply Qgtb_true in Eth | apply Qgtb_false in Eth];
        cbn [sx sy sWidth sHeight]; [lra |].
      assert (3 * H <= 4 * W) by (apply frameSize_step; [done .. | lra]). lra.
  - unfold sourceRect. cbn [sx sy sWidth sHeight].
    destruct (Math_min_cases W H) as [[Hle ->] | [Hlt ->]]; lra.
Qed.

(** X14.  The canvas of a photo is sized in whole pixels: for frames of
    sizes below 2^31 its width and height are the width and height of the
    crop with the fraction dropped, less than one pixel short and never
    more than the frame's, while [drawImage] is given the crop with its
    fraction. *)
Theorem photo_canvas_whole_pixels
    (cl : Closure) (liveBlob : option Blob) (w : World) (video : VideoElement)
    (canvas : Canvas) (style : FilterStyle) :
  videoRef (refs w) = Some video ->
  canvasRef (refs w) = Some canvas ->
  canvasContext canvas = true ->
  STYLES !! styleIndex cl = Some style ->
  (videoWidth video < 2147483648)%N ->
  (videoHeight video < 2147483648)%N ->
  let rect := sourceRect (aspect cl) (num (videoWidth video)) (num (videoHeight video)) in
  let filter := filterString (styleFilter style) (nightMode cl) in
  let w' := exec (drawPhoto cl liveBlob) w in
  let cw := reflected 300 (sWidth rect) in
  let ch := reflected 150 (sHeight rect) in
  canvasRef (refs w') = Some (mkCanvas true cw ch filter) /\
  log (plat w') = log (plat w) ++ [DrawImage rect filter] /\
  (num cw <= sWidth rect /\ sWidth rect < num cw + 1) /\
  (num ch <= sHeight rect /\ sHeight rect < num ch + 1) /\
  (cw <= videoWidth video)%N /\ (ch <= videoHeight video)%N.
Proof.
  intros Hv Hc Hctx Hs Hw Hh. cbv zeta.
  destruct (drawPhoto_draws_sourceRect cl liveBlob w video canvas style Hv Hc Hctx Hs)
    as (Hlog & Hcanvas & _).
  set (rect := sourceRect _ _ _) in *.
  assert (frameSize (num (videoWidth video))) as FW by (apply frameSize_num; lia).
  assert (frameSize (num (videoHeight video))) as FH by (apply frameSize_num; lia).
  destruct (sourceRect_within (aspect cl) _ _ FW FH) as (Hw0 & Hw1 & Hh0 & Hh1).
  fold rect in Hw0, Hw1, Hh0, Hh1.
  assert (num (videoWidth video) < 2147483648) as Hw2.
  { unfold num. change 2147483648 with (inject_Z 2147483648). rewrite <- Zlt_Qlt. lia. }
  assert (num (videoHeight video) < 2147483648) as Hh2.
  { unfold num. change 2147483648 with (inject_Z 2147483648). rewrite <- Zlt_Qlt. lia. }
  destruct (reflected_floor 300 (sWidth rect)) as (_ & Hcw1 & Hcw2); [lra | lra |].
  destruct (reflected_floor 150 (sHeight rect)) as (_ & Hch1 & Hch2); [lra | lra |].
  repeat match goal with |- _ /\ _ => split end; try done.
  - assert (num (reflected 300 (sWidth rect)) <= num (videoWidth video)) as Hle by lra.
    unfold num in Hle. rewrite <- Zle_Qle in Hle. lia.
  - assert (num (reflected 150 (sHeight rect)) <= num (videoHeight video)) as Hle by lra.
    unfold num in Hle. rewrite <- Zle_Qle in Hle. lia.
Qed.

Lemma photo_canvas_whole_pixels_witness :
  let w' := exec (drawPhoto styled None) previewing in
  let rect := sourceRect Aspect43 (num 1280) (num 800) in
  let filter :=
    "sepia(0.2) hue-rotate(180deg) saturate(0.9) brightness(1.3) contrast(1.1) saturate(0.8)" in
  canvasRef (refs w') = Some (mkCanvas true 1066 800 filter) /\
  log (plat w') = log (plat previewing) ++ [DrawImage rect filter] /\
  (num 1066 <= sWidth rect /\ sWidth rect < num 1066 + 1) /\
  (num 800 <= sHeight rect /\ sHeight rect < num 800 + 1) /\
  (1066 <= 1280)%N /\ (800 <= 800)%N.
Proof.
  exact (photo_canvas_whole_pixels styled None previewing
           (mkVideo (Some 0%nat) 1280 800) (mkCanvas true 300 150 "none")
           (mkStyle "Cool" "sepia(0.2) hue-rotate(180deg) saturate(0.9)")
           eq_refl eq_refl eq_refl eq_refl eq_refl eq_refl).
Defined.


(** X20.  [toggleFlash] never throws and flips the flash state whether or
    not there is a torch: the constraint is sent only when the first video
    track of the held stream advertises [torch], and a rejection by the
    platform is swallowed, the state staying flipped. *)
Theorem flash_toggled_regardless_of_torch (cl : Closure) (w : World) :
  let w' := exec (toggleFlash cl) w in
  let torch :=
    t ← streamRef (refs w) ≫= videoTrackOf (plat w);
    if capTorch (capabilitiesOf (plat w) t) then Some t else None in
  returns (toggleFlash cl) w = true /\
  flashOn (current (cells w')) = negb (flashOn cl) /\
  refs w' = refs w /\
  plat w' =
    set_log
      (log (plat w) ++
       match torch with
       | Some t =>
           [ApplyConstraints t (AdvTorch (negb (flashOn cl)))
              (negb (constraintsRejected (behaviour w)))]
       | None => []
       end)
      (plat w).
Proof.
  cbv zeta. unfold toggleFlash.
  repeat split; handler; cbn; repeat (split_case; cbn); rewrite ?set_log_same;
    try reflexivity; try congruence.
Qed.
